(** * FF-STATS-BOT: the data-fetch and normalisation pipeline of [bot.js]

    A shallow embedding of the cache store ([searchCache], the periodic
    sweep), the fetch orchestrator ([fetchPlayerStats], [fetchGuildInfo],
    [searchPlayerByNickname]) and the record normaliser
    ([combinePlayerData]) of [src/bot.js], together with the properties the
    specification states about them.

    Modelling conventions.
    - A response body is a JSON object, seen as a record whose fields are
      all optional (a field is [None] when the property is absent or
      [null]), or a primitive: a string (which is also what the HTTP client
      delivers for a text that did not parse as JSON), a number or a boolean,
      every property of which is absent.  Count fields hold JSON integers
      ([Z]); the two rank codes hold any JSON scalar.  JavaScript's [x || d]
      is written out with its falsy cases ([0], the empty string, [false],
      an absent value).
    - A JavaScript number is a double.  [+], [/] and [*] round the exact
      result to the nearest binary64 value, ties to even ([Number_round]);
      [Infinity] and [NaN] are outside the model: an overflow beyond
      [2^1024] and a division by [0] are not represented.  [toFixed] follows
      ECMA-262 on the exact value of the double; [Number::toString] prints
      the digits of the integers up to [2^53 - 1] and is left to the host
      beyond.
    - [async] functions are computations in a state-and-exception monad over
      a [World]: the cache, the clock read by [Date.now()], the upstream
      network, the log of requests sent and the console.  A call runs from
      start to end on its world; the interleaving of concurrent handlers at
      an [await] is not modelled. *)

From stdpp Require Import gmap strings list fin_maps.
From Stdlib Require Import ZArith QArith Qround Qabs Qpower Ascii String DecimalString
  DecimalN Lia Lqa.

Local Open Scope Z_scope.

(** ** Strings of digits *)

Definition is_digit (c : ascii) : bool :=
  (48 <=? nat_of_ascii c)%nat && (nat_of_ascii c <=? 57)%nat.

Fixpoint all_digits (s : string) : bool :=
  match s with
  | EmptyString => true
  | String c s' => is_digit c && all_digits s'
  end.

Fixpoint zeros (n : nat) : string :=
  match n with
  | O => EmptyString
  | S n' => String "0" (zeros n')
  end.

Fixpoint str_take (n : nat) (s : string) : string :=
  match n, s with
  | S n', String c s' => String c (str_take n' s')
  | _, _ => EmptyString
  end.

Fixpoint str_drop (n : nat) (s : string) : string :=
  match n, s with
  | S n', String _ s' => str_drop n' s'
  | _, _ => s
  end.

(** The decimal digits of a non-negative integer, ["0"] for zero. *)
Definition digits (n : Z) : string :=
  NilZero.string_of_uint (N.to_uint (Z.to_N n)).

(** ** Recognisers for the two number formats the record uses *)

Fixpoint split_dot (s : string) : option (string * string) :=
  match s with
  | EmptyString => None
  | String c s' =>
      if Ascii.eqb c "." then Some (EmptyString, s')
      else match split_dot s' with
           | Some (a, b) => Some (String c a, b)
           | None => None
           end
  end.

Definition strip_minus (s : string) : string :=
  match s with
  | String c s' => if Ascii.eqb c "-" then s' else s
  | EmptyString => s
  end.

(** [has_decimals f s]: [s] is an optional minus sign, one or more digits,
    a dot, and exactly [f] digits. *)
Definition has_decimals (f : nat) (s : string) : bool :=
  match split_dot (strip_minus s) with
  | Some (a, b) =>
      negb (String.eqb a EmptyString) && all_digits a && all_digits b
      && Nat.eqb (String.length b) f
  | None => false
  end.

(** [is_integer_string s]: an optional minus sign and one or more digits. *)
Definition is_integer_string (s : string) : bool :=
  let b := strip_minus s in
  negb (String.eqb b EmptyString) && all_digits b.

(** ** JavaScript numbers

    A number is a binary64 value: 53 bits of precision, least exponent
    [-1074].  [Number_round x] is the double nearest to the rational [x],
    ties going to the even significand, which is what [+], [/] and [*]
    return for the exact result [x] (IEEE 754 roundTiesToEven), as long as
    the result does not overflow to [Infinity]. *)

Definition pow2 (k : Z) : Q := (2 ^ k)%Q.

(** The integer part of the binary logarithm of a positive rational. *)
Definition Qlog2 (a : Q) : Z :=
  let l := Z.log2 (Qnum a) - Z.log2 (Zpos (Qden a)) in
  if Qle_bool (pow2 l) a then l else l - 1.

Definition roundTiesToEven (y : Q) : Z :=
  let f := Qfloor y in
  match (y - inject_Z f ?= 1 # 2)%Q with
  | Lt => f
  | Gt => f + 1
  | Eq => if Z.even f then f else f + 1
  end.

Definition Number_round (x : Q) : Q :=
  if Qeq_bool x 0 then 0%Q
  else
    let a := Qabs x in
    let e := Z.max (Qlog2 a - 52) (-1074) in
    let m := inject_Z (roundTiesToEven (a / pow2 e)) in
    ((if Qle_bool 0 x then m else - m) * pow2 e)%Q.

(** [a + b] on integer-valued numbers: the rounded sum, again an integer. *)
Definition Number_add (a b : Z) : Z :=
  Qfloor (Number_round (inject_Z (a + b))).

(** [a / b] on integer-valued numbers, for a divisor other than [0]. *)
Definition Number_div (a b : Z) : Q :=
  Number_round (inject_Z a / inject_Z b).

(** [x * y]. *)
Definition Number_mul (x y : Q) : Q := Number_round (x * y).

(** ** Upstream payloads

    The view of a response body through the properties the core reads.
    [others] holds the remaining top-level properties of an object, which
    the core passes through unread (the guild record). *)

Inductive scalar :=
| SBool (b : bool)
| SNum (n : Z)
| SStr (s : string).

(** JavaScript truthiness of a property that may be absent. *)
Definition truthy (v : option scalar) : bool :=
  match v with
  | None => false
  | Some (SBool b) => b
  | Some (SNum n) => negb (n =? 0)
  | Some (SStr s) => negb (String.eqb s EmptyString)
  end.

Module Raw.

Record DetailedStats := {
  deaths : option Z;
  headshots : option Z;
  damage : option Z
}.

Record ModeStats := {
  gamesPlayed : option Z;
  wins : option Z;
  kills : option Z;
  detailedStats : option DetailedStats
}.

Record BasicInfo := {
  nickname : option string;
  accountId : option string;
  level : option Z;
  region : option string;
  liked : option Z;
  rank : option scalar;
  rankingPoints : option Z;
  maxRank : option scalar;
  badgeCnt : option Z;
  lastLoginAt : option string
}.

Record ClanInfo := {
  clanName : option string;
  clanLevel : option Z;
  memberNum : option Z
}.

(** The properties of a body that is an object. *)
Module Fields.

Record t := {
  error : option scalar;
  message : option string;
  basicInfo : option BasicInfo;
  clanBasicInfo : option ClanInfo;
  soloStats : option ModeStats;
  quadStats : option ModeStats;
  others : list (string * scalar)
}.

End Fields.

(** [response.data] when it is not [null]: an object (an array is an object
    with none of the properties read), or a primitive (the text of a body
    that did not parse as JSON, the empty text of an empty body, a JSON
    string, number or boolean). *)
Inductive Payload :=
| Object (fields : Fields.t)
| Primitive (value : scalar).

(** Reading a property: a primitive has none of them. *)
Definition error (p : Payload) : option scalar :=
  match p with Object o => Fields.error o | Primitive _ => None end.

Definition message (p : Payload) : option string :=
  match p with Object o => Fields.message o | Primitive _ => None end.

Definition basicInfo (p : Payload) : option BasicInfo :=
  match p with Object o => Fields.basicInfo o | Primitive _ => None end.

Definition clanBasicInfo (p : Payload) : option ClanInfo :=
  match p with Object o => Fields.clanBasicInfo o | Primitive _ => None end.

Definition soloStats (p : Payload) : option ModeStats :=
  match p with Object o => Fields.soloStats o | Primitive _ => None end.

Definition quadStats (p : Payload) : option ModeStats :=
  match p with Object o => Fields.quadStats o | Primitive _ => None end.

(** Truthiness of the body itself: an object is truthy, a primitive is not
    when it is [''], [0] or [false]. *)
Definition truthy_value (p : Payload) : bool :=
  match p with Object _ => true | Primitive v => truthy (Some v) end.

(** The object literal [{}]. *)
Definition noDetailedStats : DetailedStats :=
  {| deaths := None; headshots := None; damage := None |}.

Definition noModeStats : ModeStats :=
  {| gamesPlayed := None; wins := None; kills := None; detailedStats := None |}.

Definition noBasicInfo : BasicInfo :=
  {| nickname := None; accountId := None; level := None; region := None;
     liked := None; rank := None; rankingPoints := None; maxRank := None;
     badgeCnt := None; lastLoginAt := None |}.

Definition emptyPayload : Payload :=
  Object
    {| Fields.error := None; Fields.message := None; Fields.basicInfo := None;
       Fields.clanBasicInfo := None; Fields.soloStats := None;
       Fields.quadStats := None; Fields.others := [] |}.

End Raw.

(** ** The normalised record *)

(** The two rank labels are read from the object literal [rankNames]: a
    string, or, for a key that names a property every object inherits from
    [Object.prototype], that inherited value (a function, or the prototype
    itself for [__proto__]), which is not a string. *)
Inductive Label :=
| Text (s : string)
| Inherited (property : string).

Record NormalizedRecord := {
  nickname : string;
  uid : string;
  level : Z;
  region : string;
  likes : Z;
  rank : Label;
  rankingPoints : Z;
  kdRatio : string;
  totalMatches : Z;
  totalWins : Z;
  winRate : string;
  totalKills : Z;
  headshots : Z;
  damage : Z;
  maxRank : Label;
  badgeCount : Z;
  clanInfo : option Raw.ClanInfo;
  lastLogin : string;
  soloStats : Raw.ModeStats;
  quadStats : Raw.ModeStats
}.

(** [x || d] on a number: [0] and an absent value are falsy. *)
Definition or_num (x : option Z) (d : Z) : Z :=
  match x with
  | Some n => if n =? 0 then d else n
  | None => d
  end.

(** [x || d] on a string: the empty string and an absent value are falsy. *)
Definition or_str (x : option string) (d : string) : string :=
  match x with
  | Some s => if String.eqb s EmptyString then d else s
  | None => d
  end.

(** [o?.p]: the property of an object that may be absent. *)
Definition opt_chain {A B} (o : option A) (p : A -> option B) : option B :=
  match o with
  | Some a => p a
  | None => None
  end.

(** The names of the properties an object literal inherits from
    [Object.prototype]. *)
Definition Object_prototype : list string :=
  [ "constructor"; "__defineGetter__"; "__defineSetter__"; "hasOwnProperty";
    "__lookupGetter__"; "__lookupSetter__"; "isPrototypeOf";
    "propertyIsEnumerable"; "toString"; "valueOf"; "__proto__";
    "toLocaleString" ]%string.

Fixpoint own_property (key : string) (l : list (string * string)) : option string :=
  match l with
  | [] => None
  | (k, v) :: l' => if String.eqb key k then Some v else own_property key l'
  end.

(** The object literal [rankNames] of [combinePlayerData], read at a
    property key: its ten own properties, whose keys are the strings of the
    codes, and then the inherited ones. *)
Definition rankNames (key : string) : option Label :=
  match own_property key
          [ ("220", "Grandmaster"); ("219", "Diamond I"); ("218", "Diamond II");
            ("217", "Diamond III"); ("216", "Platinum I");
            ("215", "Platinum II"); ("214", "Platinum III"); ("213", "Gold I");
            ("212", "Gold II"); ("211", "Gold III") ]%string with
  | Some name => Some (Text name)
  | None =>
      if existsb (String.eqb key) Object_prototype
      then Some (Inherited key)
      else None
  end.

(** [x || d] on what [rankNames] gives: only the empty string and an absent
    value are falsy. *)
Definition or_label (x : option Label) (d : Label) : Label :=
  match x with
  | Some (Text s) => if String.eqb s EmptyString then d else Text s
  | Some l => l
  | None => d
  end.

(** [totalDeaths] of [combinePlayerData], which the record does not keep. *)
Definition totalDeaths (solo quad : Raw.ModeStats) : Z :=
  Number_add
    (or_num (opt_chain (Raw.detailedStats solo) Raw.deaths) 0)
    (or_num (opt_chain (Raw.detailedStats quad) Raw.deaths) 0).

(** ** The cache store and the world of an [async] call *)

Inductive JsError := Error (message : string).

Definition error_message (e : JsError) : string :=
  match e with Error m => m end.

(** What [searchCache] holds under [data]: a normalised record (written by
    [fetchPlayerStats]) or a raw upstream body, object or primitive (written
    by [fetchGuildInfo]). *)
Inductive CachedData :=
| PlayerData (r : NormalizedRecord)
| RawData (p : Raw.Payload).

Record CacheEntry := {
  data : CachedData;
  timestamp : Z
}.

(** Truthiness of what a fetch function returned: a record is an object. *)
Definition data_truthy (d : CachedData) : bool :=
  match d with
  | PlayerData _ => true
  | RawData p => Raw.truthy_value p
  end.

(** The value a callback tests with [if (!x)]: [None] when the test
    succeeds, for [null] and for a falsy value alike. *)
Definition when_truthy (x : option CachedData) : option CachedData :=
  match x with
  | Some d => if data_truthy d then Some d else None
  | None => None
  end.

(** The settlement of the promise [axios.get] returns: fulfilled with
    [response.data] ([None] for a [null] body), or rejected, which is how
    [axios] reports a transport-level failure (a timeout, a connection
    error, a status outside 2xx).  A body that does not parse as JSON is
    not rejected: it is delivered as its text, a [Raw.Primitive]. *)
Inductive HttpResult :=
| Fulfilled (body : option Raw.Payload)
| Rejected (e : JsError).

(** [network url t] is what a request for [url] sent at time [t] (in
    milliseconds) settles to, and the time it takes. *)
Record World := {
  searchCache : gmap string CacheEntry;
  clock : Z;
  network : string -> Z -> Z * HttpResult;
  requests : list string;
  console : list string
}.

Definition CACHE_DURATION : Z := 5 * 60 * 1000.

Inductive Completion (A : Type) :=
| Normal (a : A)
| Throw (e : JsError).

Arguments Normal {A} a.
Arguments Throw {A} e.

Definition M (A : Type) : Type := World -> Completion A * World.

#[global] Instance M_ret : MRet M := fun A a w => (Normal a, w).

#[global] Instance M_bind : MBind M := fun A B k m w =>
  match m w with
  | (Normal a, w') => k a w'
  | (Throw e, w') => (Throw e, w')
  end.

Definition throw {A} (e : JsError) : M A := fun w => (Throw e, w).

Definition try_catch {A} (body : M A) (handler : JsError -> M A) : M A :=
  fun w =>
    match body w with
    | (Normal a, w') => (Normal a, w')
    | (Throw e, w') => handler e w'
    end.

Definition Date_now : M Z := fun w => (Normal (clock w), w).

Definition cache_get (key : string) : M (option CacheEntry) :=
  fun w => (Normal (searchCache w !! key), w).

Definition with_cache (c : gmap string CacheEntry) (w : World) : World :=
  {| searchCache := c; clock := clock w; network := network w;
     requests := requests w; console := console w |}.

Definition cache_set (key : string) (e : CacheEntry) : M unit :=
  fun w => (Normal tt, with_cache (<[key := e]> (searchCache w)) w).

Definition cache_delete (key : string) : M unit :=
  fun w => (Normal tt, with_cache (delete key (searchCache w)) w).

(** The world after a line is written to the console. *)
Definition logged (line : string) (w : World) : World :=
  {| searchCache := searchCache w; clock := clock w; network := network w;
     requests := requests w; console := console w ++ [line] |}.

Definition console_log (line : string) : M unit :=
  fun w => (Normal tt, logged line w).

(** The world after a request for [url] has settled, [elapsed] ms later. *)
Definition requested (url : string) (elapsed : Z) (w : World) : World :=
  {| searchCache := searchCache w; clock := clock w + elapsed;
     network := network w; requests := requests w ++ [url];
     console := console w |}.

(** [await axios.get(url, { headers, timeout: 10000 })]. *)
Definition axios_get (url : string) : M (option Raw.Payload) :=
  fun w =>
    let '(elapsed, result) := network w url (clock w) in
    match result with
    | Fulfilled body => (Normal body, requested url elapsed w)
    | Rejected e => (Throw e, requested url elapsed w)
    end.

(** Reading a property of [response.data] throws a [TypeError] when the body
    is [null]. *)
Definition response_data (body : option Raw.Payload) : M Raw.Payload :=
  match body with
  | Some p => mret p
  | None => throw (Error "Cannot read properties of null (reading 'error')")
  end.

(** The read both fetch functions start with:
    [cached && Date.now() - cached.timestamp < CACHE_DURATION], and then
    [return cached.data]. *)
Definition cache_get_fresh (key : string) : M (option CachedData) :=
  cached ← cache_get key;
  match cached with
  | Some entry =>
      now ← Date_now;
      if now - timestamp entry <? CACHE_DURATION
      then mret (Some (data entry))
      else mret None
  | None => mret None
  end.

(** [has_fresh_entry key w]: the store of [w] holds an entry under [key]
    that the read above accepts at the time of [w]. *)
Definition has_fresh_entry (key : string) (w : World) : bool :=
  match searchCache w !! key with
  | Some entry => clock w - timestamp entry <? CACHE_DURATION
  | None => false
  end.

(** Time passing between two calls. *)
Definition tick (ms : Z) (w : World) : World :=
  {| searchCache := searchCache w; clock := clock w + ms; network := network w;
     requests := requests w; console := console w |}.

Definition cache_entries : M (list (string * CacheEntry)) :=
  fun w => (Normal (map_to_list (searchCache w)), w).

Definition cache_size : M Z :=
  fun w => (Normal (Z.of_nat (size (searchCache w))), w).

(** ** The source registry

    [statsSources[0]], the one entry the fetch functions read; the second
    entry of the list is never reached. *)

Module Source.

Record Endpoints := {
  account : string;
  playerStats : string;
  guildInfo : string
}.

Record t := {
  name : string;
  baseUrl : string;
  endpoints : Endpoints;
  reliability : Z;
  responseFormat : string
}.

End Source.

Definition primarySource : Source.t :=
  {| Source.name := "Free FF API (Primary)";
     Source.baseUrl := "https://free-ff-api-src-5plp.onrender.com/api/v1";
     Source.endpoints :=
       {| Source.account := "/account";
          Source.playerStats := "/playerstats";
          Source.guildInfo := "/guildInfo" |};
     Source.reliability := 95;
     Source.responseFormat := "json" |}.

(** The [params] function of the primary source. *)
Definition params (query region endpoint : string) : string :=
  let baseParams := "?region=" +:+ or_str (Some region) "IND" +:+ "&uid=" +:+ query in
  if String.eqb endpoint "guildInfo"
  then "?region=" +:+ or_str (Some region) "IND" +:+ "&guildID=" +:+ query
  else baseParams.

(** The template literals and request URLs of the fetch functions (their
    local constants [cacheKey], [accountUrl], [statsUrl], [guildUrl]). *)
Definition stats_cacheKey (uid region : string) : string :=
  "stats-" +:+ uid +:+ "-" +:+ region.

Definition guild_cacheKey (guildId region : string) : string :=
  "guild-" +:+ guildId +:+ "-" +:+ region.

Definition accountUrl (uid region : string) : string :=
  Source.baseUrl primarySource
  +:+ Source.account (Source.endpoints primarySource)
  +:+ params uid region "account".

Definition statsUrl (uid region : string) : string :=
  Source.baseUrl primarySource
  +:+ Source.playerStats (Source.endpoints primarySource)
  +:+ params uid region "playerStats".

Definition guildUrl (guildId region : string) : string :=
  Source.baseUrl primarySource
  +:+ Source.guildInfo (Source.endpoints primarySource)
  +:+ params guildId region "guildInfo".

Module Candidate.

Record t := {
  nickname : string;
  uid : string;
  level : Z;
  region : string
}.

End Candidate.

(** ** Conditions on payloads used in the statements *)

(** [Number.MAX_SAFE_INTEGER]: up to it the integers are JavaScript numbers. *)
Definition MAX_SAFE_INTEGER : Z := 2 ^ 53 - 1.


Definition non_negative (x : option Z) : bool :=
  match x with
  | Some n => 0 <=? n
  | None => true
  end.

(** The counts of one game mode that [combinePlayerData] adds up. *)
Definition mode_counts (m : option Raw.ModeStats) : list (option Z) :=
  [ opt_chain m Raw.gamesPlayed;
    opt_chain m Raw.wins;
    opt_chain m Raw.kills;
    opt_chain (opt_chain m Raw.detailedStats) Raw.deaths;
    opt_chain (opt_chain m Raw.detailedStats) Raw.headshots;
    opt_chain (opt_chain m Raw.detailedStats) Raw.damage ].

Definition stats_counts (statsData : option Raw.Payload) : list (option Z) :=
  mode_counts (opt_chain statsData Raw.soloStats)
  ++ mode_counts (opt_chain statsData Raw.quadStats).

(** Every upstream number the numeric fields of the record are computed
    from. *)
Definition numeric_inputs (accountData : Raw.Payload)
    (statsData : option Raw.Payload) : list (option Z) :=
  [ opt_chain (Raw.basicInfo accountData) Raw.level;
    opt_chain (Raw.basicInfo accountData) Raw.liked;
    opt_chain (Raw.basicInfo accountData) Raw.rankingPoints;
    opt_chain (Raw.basicInfo accountData) Raw.badgeCnt ]
  ++ stats_counts statsData.

(** ** Sample payloads and worlds for the closed examples *)

Definition sample_locale (s : string) : string := "date " +:+ s.

(** [Number::toString] of [10^21], the one magnitude beyond the safe
    integers that the closed examples render. *)
Definition sample_exponent (x : Q) : string := "1e+21".

Definition account_not_found : Raw.Payload :=
  Raw.Object
    {| Raw.Fields.error := Some (SBool true);
       Raw.Fields.message := Some "uid not found"%string;
       Raw.Fields.basicInfo := None; Raw.Fields.clanBasicInfo := None;
       Raw.Fields.soloStats := None; Raw.Fields.quadStats := None;
       Raw.Fields.others := [] |}.

Definition sample_basicInfo (rank level : option Z) : Raw.BasicInfo :=
  {| Raw.nickname := Some "ProGamer"%string; Raw.accountId := Some "1633864660"%string;
     Raw.level := level; Raw.region := Some "IND"%string; Raw.liked := Some 12;
     Raw.rank := SNum <$> rank; Raw.rankingPoints := Some 3100;
     Raw.maxRank := SNum <$> rank;
     Raw.badgeCnt := Some 4; Raw.lastLoginAt := Some "1700000000"%string |}.

Definition sample_account (rank level : option Z) : Raw.Payload :=
  Raw.Object
    {| Raw.Fields.error := None; Raw.Fields.message := None;
       Raw.Fields.basicInfo := Some (sample_basicInfo rank level);
       Raw.Fields.clanBasicInfo := None; Raw.Fields.soloStats := None;
       Raw.Fields.quadStats := None; Raw.Fields.others := [] |}.

(** An account body whose two rank codes are the given JSON values. *)
Definition account_with_ranks (rank maxRank : option scalar) : Raw.Payload :=
  Raw.Object
    {| Raw.Fields.error := None; Raw.Fields.message := None;
       Raw.Fields.basicInfo :=
         Some {| Raw.nickname := Some "ProGamer"%string;
                 Raw.accountId := Some "1633864660"%string;
                 Raw.level := Some 75; Raw.region := Some "IND"%string;
                 Raw.liked := Some 12; Raw.rank := rank;
                 Raw.rankingPoints := Some 3100; Raw.maxRank := maxRank;
                 Raw.badgeCnt := Some 4;
                 Raw.lastLoginAt := Some "1700000000"%string |};
       Raw.Fields.clanBasicInfo := None; Raw.Fields.soloStats := None;
       Raw.Fields.quadStats := None; Raw.Fields.others := [] |}.

Definition sample_mode (games wins kills deaths : Z) : Raw.ModeStats :=
  {| Raw.gamesPlayed := Some games; Raw.wins := Some wins; Raw.kills := Some kills;
     Raw.detailedStats :=
       Some {| Raw.deaths := Some deaths; Raw.headshots := Some 7;
               Raw.damage := Some 5000 |} |}.

Definition sample_stats (solo quad : Raw.ModeStats) : Raw.Payload :=
  Raw.Object
    {| Raw.Fields.error := None; Raw.Fields.message := None;
       Raw.Fields.basicInfo := None; Raw.Fields.clanBasicInfo := None;
       Raw.Fields.soloStats := Some solo; Raw.Fields.quadStats := Some quad;
       Raw.Fields.others := [] |}.


Definition sample_guild : Raw.Payload :=
  Raw.Object
    {| Raw.Fields.error := None; Raw.Fields.message := None;
       Raw.Fields.basicInfo := None; Raw.Fields.clanBasicInfo := None;
       Raw.Fields.soloStats := None; Raw.Fields.quadStats := None;
       Raw.Fields.others :=
         [("clanName"%string, SStr "Legends"); ("memberNum"%string, SNum 42)] |}.

(** The text of a body that is not JSON, as the HTTP client delivers it, and
    the empty text of an empty body. *)
Definition malformed_body : Raw.Payload :=
  Raw.Primitive (SStr "<html>502 Bad Gateway</html>").

Definition empty_body : Raw.Payload := Raw.Primitive (SStr EmptyString).

Definition timeout_error : JsError := Error "timeout of 10000ms exceeded".

(** Upstream answers every request after 250 ms with the given settlement
    for the account endpoint and for the other endpoints. *)
Definition sample_network (account other : HttpResult) : string -> Z -> Z * HttpResult :=
  fun url _ =>
    if String.eqb url (accountUrl "1633864660" "IND") then (250, account)
    else (250, other).

Definition sample_world (cache : gmap string CacheEntry) (now : Z)
    (net : string -> Z -> Z * HttpResult) : World :=
  {| searchCache := cache; clock := now; network := net; requests := [];
     console := [] |}.

(** A record stored by an earlier call. *)
Definition stale_record : NormalizedRecord :=
  {| nickname := "ProGamer"; uid := "1633864660"; level := 74; region := "IND";
     likes := 12; rank := Text "Diamond I"; rankingPoints := 3000;
     kdRatio := "3.00";
     totalMatches := 90; totalWins := 40; winRate := "44.4"; totalKills := 110;
     headshots := 14; damage := 10000; maxRank := Text "Diamond I";
     badgeCount := 4;
     clanInfo := None; lastLogin := "Unknown";
     soloStats := Raw.noModeStats; quadStats := Raw.noModeStats |}.

Definition sample_entry (stored : Z) : CacheEntry :=
  {| data := PlayerData stale_record; timestamp := stored |}.

(** Upstream as it answers a known player. *)
Definition network_ok : string -> Z -> Z * HttpResult :=
  sample_network
    (Fulfilled (Some (sample_account (Some 220) (Some 75))))
    (Fulfilled (Some (sample_stats (sample_mode 60 25 70 20) (sample_mode 40 18 50 20)))).

(** Upstream as it answers an unknown uid. *)
Definition network_not_found : string -> Z -> Z * HttpResult :=
  sample_network (Fulfilled (Some account_not_found)) (Rejected timeout_error).

(** Upstream timing out on every request. *)
Definition network_down : string -> Z -> Z * HttpResult :=
  sample_network (Rejected timeout_error) (Rejected timeout_error).

(** ** Cache keys and the kinds of cached data *)

(** An entry written by [fetchPlayerStats] sits under a key that starts
    with [stats-] and one written by [fetchGuildInfo] under a key that
    starts with [guild-]. *)
Fixpoint starts_with (p s : string) : bool :=
  match p, s with
  | EmptyString, _ => true
  | String a p', String b s' => Ascii.eqb a b && starts_with p' s'
  | String _ _, EmptyString => false
  end.

Definition entry_fits_key (key : string) (entry : CacheEntry) : bool :=
  match data entry with
  | PlayerData _ => starts_with "stats-" key
  | RawData _ => starts_with "guild-" key
  end.

Definition cache_typed (c : gmap string CacheEntry) : Prop :=
  forall key entry, c !! key = Some entry -> entry_fits_key key entry = true.

(** ** The chat commands

    The callbacks registered with [bot.onText] for [/stats], [/search] and
    [/guild].  A callback receives the chat id and the groups of the match
    ([match[1]], [match[2]]; [None] for a group that did not take part).
    A session is the world of the fetch functions together with the calls
    made to the Bot API so far and what the API answers to each. *)

Definition dquote : string := String (ascii_of_nat 34) EmptyString.

Definition validRegions : list string :=
  ["IND"; "BR"; "SG"; "RU"; "ID"; "TW"; "US"; "VN"; "TH"; "ME"; "PK"; "CIS"; "BD"]%string.

(** [list.includes(x)]. *)
Definition includes (l : list string) (x : string) : bool :=
  existsb (String.eqb x) l.

(** [!x] on a group of the match. *)
Definition absent_or_empty (x : option string) : bool :=
  match x with
  | Some s => String.eqb s EmptyString
  | None => true
  end.

Definition statsInvalidFormat : string :=
  "
❌ **Invalid Format**

Please provide a UID (User ID):
`/stats [UID] [Region]`

**Example:**
`/stats 1633864660 IND`

Use /help for more information.
        ".

Definition statsInvalidRegion (uid : string) : string :=
  "
❌ **Invalid Region**

Supported regions: " +:+ String.concat ", " validRegions +:+ "

**Example:**
`/stats " +:+ uid +:+ " IND`

Use /regions to see all regions.
        ".

Definition statsNotFound (uid region : string) : string :=
  "
❌ **Player Not Found**

No data found for UID: `" +:+ uid +:+ "` in region `" +:+ region +:+ "`

**Tips:**
• Check if UID is correct
• Try different region
• Player might have privacy settings enabled

Use /help for more information.
            ".

Definition statsError (message : string) : string :=
  "
❌ **Error Occurred**

Failed to fetch player data. This might be due to:
• Server temporarily unavailable
• Invalid UID format
• Network connectivity issues

Please try again in a few moments.

**Error:** `" +:+ message +:+ "`
        ".

Definition searchInvalidFormat : string :=
  "
❌ **Invalid Format**

Please provide a nickname:
`/search [Nickname]`

**Example:**
`/search ProGamer`
`/search SniperKing`

Use /help for more information.
        ".

Definition searchLoading (nickname : string) : string :=
  "🔍 Searching for players with nickname: " +:+ dquote +:+ nickname +:+ dquote +:+ "...".

Definition searchNoPlayers (nickname : string) : string :=
  "
❌ **No Players Found**

No players found with nickname: `" +:+ nickname +:+ "`

**Tips:**
• Try partial nicknames
• Check spelling
• Some special characters might not work

Use /help for more information.
            ".

Definition searchError (message : string) : string :=
  "
❌ **Search Error**

Failed to search for players. Please try again.

**Error:** `" +:+ message +:+ "`
        ".

Definition guildInvalidFormat : string :=
  "
❌ **Invalid Format**

Please provide a Guild ID:
`/guild [Guild ID] [Region]`

**Example:**
`/guild 3033195648 IND`

Use /help for more information.
        ".

Definition guildNotFound (guildId region : string) : string :=
  "
❌ **Guild Not Found**

No guild found with ID: `" +:+ guildId +:+ "` in region `" +:+ region +:+ "`

**Tips:**
• Check if Guild ID is correct
• Try different region
• Guild might be private

Use /help for more information.
            ".

Definition guildError (message : string) : string :=
  "
❌ **Error Occurred**

Failed to fetch guild information.

**Error:** `" +:+ message +:+ "`
        ".

Definition statsLoading : string := "🔍 Searching for player data...".

Definition guildLoading : string := "🔍 Fetching guild information...".

Definition Markdown : option string := Some "Markdown"%string.

Inductive Action :=
| SendMessage (chatId : Z) (text : string) (parse_mode : option string)
| EditMessageText (text : string) (chat_id message_id : Z) (parse_mode : option string).

(** What the Bot API answers to a call: the message, of which the callbacks
    read the id, or a rejection. *)
Inductive TelegramResult :=
| Delivered (message_id : Z)
| Undelivered (e : JsError).

(** [telegram k] is the answer to the call number [k], counted from [0]. *)
Record Session := {
  world : World;
  sent : list Action;
  telegram : nat -> TelegramResult
}.

Definition Callback (A : Type) : Type := Session -> Completion A * Session.

#[global] Instance Callback_ret : MRet Callback := fun A a s => (Normal a, s).

#[global] Instance Callback_bind : MBind Callback := fun A B k m s =>
  match m s with
  | (Normal a, s') => k a s'
  | (Throw e, s') => (Throw e, s')
  end.

Definition try_catch_session {A} (body : Callback A) (handler : JsError -> Callback A) : Callback A :=
  fun s =>
    match body s with
    | (Normal a, s') => (Normal a, s')
    | (Throw e, s') => handler e s'
    end.

Definition with_world (w : World) (s : Session) : Session :=
  {| world := w; sent := sent s; telegram := telegram s |}.

(** The session after one more call to the Bot API. *)
Definition called (a : Action) (s : Session) : Session :=
  {| world := world s; sent := sent s ++ [a]; telegram := telegram s |}.

(** A computation of the fetch layer, run on the world of the session. *)
Definition lift {A} (m : M A) : Callback A :=
  fun s => let '(c, w') := m (world s) in (c, with_world w' s).

(** [await bot.sendMessage(...)] and [await bot.editMessageText(...)]: the
    id of the message, or the rejection thrown at the [await]. *)
Definition bot_await (a : Action) : Callback Z :=
  fun s =>
    match telegram s (List.length (sent s)) with
    | Delivered message_id => (Normal message_id, called a s)
    | Undelivered e => (Throw e, called a s)
    end.

(** [bot.sendMessage(...)] without [await]: the call is made and the
    callback goes on, whatever becomes of the promise. *)
Definition bot_detached (a : Action) : Callback unit :=
  fun s => (Normal tt, called a s).


(** A Bot API that delivers every call, and host renderings for the closed
    examples. *)
Definition sample_telegram (k : nat) : TelegramResult :=
  Delivered (Z.of_nat k + 100).

Definition sample_session (w : World) : Session :=
  {| world := w; sent := []; telegram := sample_telegram |}.

Definition sample_format (d : CachedData) : string :=
  match d with
  | PlayerData player => nickname player
  | RawData _ => "guild"
  end.

Definition sample_inspect (e : JsError) : string := error_message e.

(** ** The host runtime *)

Section Host.

(** Two renderings of the host are left abstract: the locale-dependent
    [new Date(parseInt(s) * 1000).toLocaleString()] and what
    [Number::toString] gives for a magnitude beyond the safe integers (the
    shortest digits that read back as the same double, in exponent notation
    from [10^21] on). *)
Variable localeDateTime : string -> string.
Variable exponentNotation : Q -> string.

(** [Number::toString] (radix 10) on an integer-valued number. *)
Definition render_magnitude (m : Z) : string :=
  if m <=? MAX_SAFE_INTEGER then digits m else exponentNotation (inject_Z m).

Definition Number_toString (z : Z) : string :=
  if z <? 0 then "-" +:+ render_magnitude (- z) else render_magnitude z.

(** [Number.prototype.toFixed(f)], ECMA-262 21.1.3.3. *)
Definition toFixed_magnitude (f : nat) (x : Q) : string :=
  if Qle_bool (inject_Z (10 ^ 21)) x then exponentNotation x
  else
    let n := Qfloor (x * inject_Z (10 ^ Z.of_nat f) + (1 # 2)) in
    let m := digits n in
    match f with
    | O => m
    | _ =>
        let k := String.length m in
        let m' := if (k <=? f)%nat then zeros (f + 1 - k) +:+ m else m in
        let k' := if (k <=? f)%nat then (f + 1)%nat else k in
        str_take (k' - f) m' +:+ "." +:+ str_drop (k' - f) m'
    end.

Definition toFixed (f : nat) (x : Q) : string :=
  if Qle_bool 0 x then toFixed_magnitude f x
  else "-" +:+ toFixed_magnitude f (- x).

(** ** The record normaliser *)

(** [ToString] of a JSON scalar, which is also the property key it stands
    for in [rankNames[...]]. *)
Definition ToString (v : scalar) : string :=
  match v with
  | SBool b => if b then "true" else "false"
  | SNum n => Number_toString n
  | SStr s => s
  end.

(** [rankNames[code]]; [undefined] and [null] name no property of it. *)
Definition rankNames_at (code : option scalar) : option Label :=
  match code with
  | Some v => rankNames (ToString v)
  | None => None
  end.

Definition combinePlayerData (accountData : Raw.Payload)
    (statsData : option Raw.Payload) (uid region : string) : NormalizedRecord :=
  let basicInfo := default Raw.noBasicInfo (Raw.basicInfo accountData) in
  let soloStats := default Raw.noModeStats (opt_chain statsData Raw.soloStats) in
  let quadStats := default Raw.noModeStats (opt_chain statsData Raw.quadStats) in
  let totalMatches :=
    Number_add (or_num (Raw.gamesPlayed soloStats) 0)
      (or_num (Raw.gamesPlayed quadStats) 0) in
  let totalWins :=
    Number_add (or_num (Raw.wins soloStats) 0) (or_num (Raw.wins quadStats) 0) in
  let totalKills :=
    Number_add (or_num (Raw.kills soloStats) 0) (or_num (Raw.kills quadStats) 0) in
  let totalDeaths := totalDeaths soloStats quadStats in
  let winRate :=
    if totalMatches >? 0
    then toFixed 1 (Number_mul (Number_div totalWins totalMatches) (inject_Z 100))
    else "0.0"%string in
  let kdRatio :=
    if totalDeaths >? 0
    then toFixed 2 (Number_div totalKills totalDeaths)
    else Number_toString totalKills in
  {| nickname := or_str (Raw.nickname basicInfo) "Unknown";
     uid := or_str (Raw.accountId basicInfo) uid;
     level := or_num (Raw.level basicInfo) 0;
     region := or_str (Raw.region basicInfo) region;
     likes := or_num (Raw.liked basicInfo) 0;
     rank :=
       or_label (rankNames_at (Raw.rank basicInfo))
         (Text ("Rank " +:+
                match Raw.rank basicInfo with
                | Some code =>
                    if truthy (Some code) then ToString code else "Unknown"
                | None => "Unknown"
                end));
     rankingPoints := or_num (Raw.rankingPoints basicInfo) 0;
     kdRatio := kdRatio;
     totalMatches := totalMatches;
     totalWins := totalWins;
     winRate := winRate;
     totalKills := totalKills;
     headshots :=
       Number_add
         (or_num (opt_chain (Raw.detailedStats soloStats) Raw.headshots) 0)
         (or_num (opt_chain (Raw.detailedStats quadStats) Raw.headshots) 0);
     damage :=
       Number_add
         (or_num (opt_chain (Raw.detailedStats soloStats) Raw.damage) 0)
         (or_num (opt_chain (Raw.detailedStats quadStats) Raw.damage) 0);
     maxRank := or_label (rankNames_at (Raw.maxRank basicInfo)) (Text "Unknown");
     badgeCount := or_num (Raw.badgeCnt basicInfo) 0;
     clanInfo := Raw.clanBasicInfo accountData;
     lastLogin :=
       match Raw.lastLoginAt basicInfo with
       | Some s => if String.eqb s EmptyString then "Unknown" else localeDateTime s
       | None => "Unknown"
       end;
     soloStats := soloStats;
     quadStats := quadStats |}.

(** ** The fetch orchestrator *)

Definition fetchPlayerStats (uid region : string) : M (option CachedData) :=
  let cacheKey := stats_cacheKey uid region in
  cached ← cache_get_fresh cacheKey;
  match cached with
  | Some d =>
      _ ← console_log ("Using cached data for " +:+ uid);
      mret (Some d)
  | None =>
      try_catch
        (accountResponse ← axios_get (accountUrl uid region);
         accountData ← response_data accountResponse;
         if truthy (Raw.error accountData)
         then throw (Error (default EmptyString (Raw.message accountData)))
         else
           statsResponse ← axios_get (statsUrl uid region);
           let combinedData :=
             combinePlayerData accountData statsResponse uid region in
           now ← Date_now;
           _ ← cache_set cacheKey
                 {| data := PlayerData combinedData; timestamp := now |};
           mret (Some (PlayerData combinedData)))
        (fun error =>
           _ ← console_log ("Primary source failed: " +:+ error_message error);
           mret None)
  end.

Definition searchPlayerByNickname (nickname : string) : M (list Candidate.t) :=
  mret [ {| Candidate.nickname := nickname;
            Candidate.uid := "1633864660";
            Candidate.level := 75;
            Candidate.region := "IND" |} ].

Definition fetchGuildInfo (guildId region : string) : M (option CachedData) :=
  let cacheKey := guild_cacheKey guildId region in
  cached ← cache_get_fresh cacheKey;
  match cached with
  | Some d => mret (Some d)
  | None =>
      try_catch
        (response ← axios_get (guildUrl guildId region);
         guildData ← response_data response;
         if truthy (Raw.error guildData)
         then mret None
         else
           now ← Date_now;
           _ ← cache_set cacheKey {| data := RawData guildData; timestamp := now |};
           mret (Some (RawData guildData)))
        (fun error =>
           _ ← console_log ("Guild fetch failed: " +:+ error_message error);
           mret None)
  end.

(** ** The periodic sweep: the callback of [setInterval] *)

(** What one iteration of the loop does to the store (the entries of the
    [Map] are visited once each; the order does not matter). *)
Definition sweep_step (now : Z) (c : gmap string CacheEntry)
    (kv : string * CacheEntry) : gmap string CacheEntry :=
  if now - timestamp kv.2 >? CACHE_DURATION * 2 then delete kv.1 c else c.

Definition sweep_entry (now : Z) (kv : string * CacheEntry) : M unit :=
  if now - timestamp kv.2 >? CACHE_DURATION * 2
  then cache_delete kv.1
  else mret tt.

Fixpoint for_of {A} (l : list A) (body : A -> M unit) : M unit :=
  match l with
  | [] => mret tt
  | x :: l' => _ ← body x; for_of l' body
  end.

Definition sweep : M unit :=
  now ← Date_now;
  entries ← cache_entries;
  _ ← for_of entries (sweep_entry now);
  size ← cache_size;
  console_log ("Cache cleaned. Current size: " +:+ Number_toString size).

(** ** Number formatting for the messages *)

Definition formatNumber (num : Z) : string :=
  if 1000000 <=? num
  then toFixed 1 (Number_div num 1000000) +:+ "M"
  else if 1000 <=? num
  then toFixed 1 (Number_div num 1000) +:+ "K"
  else or_str (Some (Number_toString num)) "0".

(** ** The callbacks of the chat commands *)

(** The texts [formatPlayerStats] and [formatGuildInfo] build from the data a
    fetch returned are left abstract, and so is the rendering of an error
    object by [console.error]: the callbacks are modelled for every such
    rendering. *)
Variable formatPlayerStats : CachedData -> string.
Variable formatGuildInfo : CachedData -> string.
Variable inspectError : JsError -> string.

Definition onStats (chatId : Z) (match1 match2 : option string) : Callback unit :=
  let uid := match1 in
  let region := or_str match2 "IND" in
  match uid with
  | Some uid =>
      if String.eqb uid EmptyString
      then bot_detached (SendMessage chatId statsInvalidFormat Markdown)
      else if negb (includes validRegions region)
      then bot_detached (SendMessage chatId (statsInvalidRegion uid) Markdown)
      else
        loadingMsg ← bot_await (SendMessage chatId statsLoading Markdown);
        try_catch_session
          (playerData ← lift (fetchPlayerStats uid region);
           match when_truthy playerData with
           | None =>
               _ ← bot_await
                     (EditMessageText (statsNotFound uid region) chatId loadingMsg
                        Markdown);
               mret tt
           | Some player =>
               let statsMessage := formatPlayerStats player in
               _ ← bot_await (EditMessageText statsMessage chatId loadingMsg Markdown);
               mret tt
           end)
          (fun error =>
             _ ← lift (console_log
                         ("Error fetching player stats: " +:+ inspectError error));
             _ ← bot_await
                   (EditMessageText (statsError (error_message error)) chatId
                      loadingMsg Markdown);
             mret tt)
  | None => bot_detached (SendMessage chatId statsInvalidFormat Markdown)
  end.

(** The text the [/search] callback builds from the results. *)
Definition searchResultEntry (index : nat) (player : Candidate.t) : string :=
  "**" +:+ Number_toString (Z.of_nat index + 1) +:+ ".** "
  +:+ Candidate.nickname player +:+ "
" +:+ "• UID: `" +:+ Candidate.uid player +:+ "`
" +:+ "• Level: " +:+ Number_toString (Candidate.level player) +:+ "
" +:+ "• Region: " +:+ Candidate.region player +:+ "
" +:+ "• Get stats: /stats " +:+ Candidate.uid player +:+ " "
  +:+ Candidate.region player +:+ "

".

Definition searchResultMessage (nickname : string)
    (searchResults : list Candidate.t) : string :=
  "🔍 **Search Results for " +:+ dquote +:+ nickname +:+ dquote +:+ "**

"
  +:+ String.concat EmptyString (imap searchResultEntry (take 5 searchResults))
  +:+ (if (5 <? List.length searchResults)%nat
       then "*... and "
            +:+ Number_toString (Z.of_nat (List.length searchResults) - 5)
            +:+ " more results*
"
       else EmptyString)
  +:+ "
💡 Use /stats [UID] [Region] to get detailed statistics".

Definition onSearch (chatId : Z) (match1 : option string) : Callback unit :=
  match match1 with
  | Some nickname =>
      if String.eqb nickname EmptyString
      then bot_detached (SendMessage chatId searchInvalidFormat Markdown)
      else
        loadingMsg ← bot_await (SendMessage chatId (searchLoading nickname) None);
        try_catch_session
          (searchResults ← lift (searchPlayerByNickname nickname);
           if (List.length searchResults =? 0)%nat
           then
             _ ← bot_await
                   (EditMessageText (searchNoPlayers nickname) chatId loadingMsg
                      Markdown);
             mret tt
           else
             _ ← bot_await
                   (EditMessageText (searchResultMessage nickname searchResults)
                      chatId loadingMsg Markdown);
             mret tt)
          (fun error =>
             _ ← lift (console_log ("Error searching players: " +:+ inspectError error));
             _ ← bot_await
                   (EditMessageText (searchError (error_message error)) chatId
                      loadingMsg Markdown);
             mret tt)
  | None => bot_detached (SendMessage chatId searchInvalidFormat Markdown)
  end.

Definition onGuild (chatId : Z) (match1 match2 : option string) : Callback unit :=
  let guildId := match1 in
  let region := or_str match2 "IND" in
  match guildId with
  | Some guildId =>
      if String.eqb guildId EmptyString
      then bot_detached (SendMessage chatId guildInvalidFormat Markdown)
      else
        loadingMsg ← bot_await (SendMessage chatId guildLoading Markdown);
        try_catch_session
          (guildData ← lift (fetchGuildInfo guildId region);
           match when_truthy guildData with
           | None =>
               _ ← bot_await
                     (EditMessageText (guildNotFound guildId region) chatId
                        loadingMsg Markdown);
               mret tt
           | Some guild =>
               let guildMessage := formatGuildInfo guild in
               _ ← bot_await (EditMessageText guildMessage chatId loadingMsg Markdown);
               mret tt
           end)
          (fun error =>
             _ ← lift (console_log
                         ("Error fetching guild info: " +:+ inspectError error));
             _ ← bot_await
                   (EditMessageText (guildError (error_message error)) chatId
                      loadingMsg Markdown);
             mret tt)
  | None => bot_detached (SendMessage chatId guildInvalidFormat Markdown)
  end.

Ltac run_callback :=
  unfold bot_await, bot_detached, lift, try_catch_session, mbind, Callback_bind,
    mret, Callback_ret;
  cbn [world sent telegram called with_world fst snd].

Ltac run_session s :=
  repeat first
    [ progress cbn [world sent telegram called with_world fst snd requests
                    searchCache console logged when_truthy]
    | progress unfold console_log
    | match goal with
      | |- context [match telegram s ?k with _ => _ end] =>
          destruct (telegram s k)
      | |- context [if data_truthy ?d then _ else _] =>
          destruct (data_truthy d)
      end ].

Ltac run_session_eqn s :=
  repeat first
    [ progress cbn [world sent telegram called with_world fst snd requests
                    searchCache console logged negb when_truthy]
    | progress unfold console_log
    | match goal with
      | |- context [match telegram s ?k with _ => _ end] =>
          destruct (telegram s k) eqn:?
      | |- context [if data_truthy ?d then _ else _] =>
          destruct (data_truthy d)
      end ].

Ltac failed_call :=
  right; eexists _, _; split; [eassumption|];
  split; [reflexivity|]; rewrite !last_length; reflexivity.

(** ** Proof automation *)

Ltac split_forallb H :=
  simpl in H;
  repeat match type of H with
         | (_ && _) = true => let H' := fresh "Hin" in apply andb_prop in H as [H' H]
         end.

Ltac run_monad :=
  unfold response_data, axios_get, cache_set, console_log, Date_now, throw,
    try_catch, mbind, M_bind, mret, M_ret.

(** ** Rounding to a double *)

Lemma pow2_pos (k : Z) : (0 < pow2 k)%Q.
Proof. apply Qpower_0_lt. reflexivity. Qed.

Lemma pow2_Z (k : Z) : 0 <= k -> (pow2 k == inject_Z (2 ^ k))%Q.
Proof. intros Hk. unfold pow2. rewrite Zpower_Qpower by exact Hk. reflexivity. Qed.

Lemma pow2_plus (a b : Z) : (pow2 (a + b) == pow2 a * pow2 b)%Q.
Proof. unfold pow2. apply Qpower_plus. discriminate. Qed.

Lemma pow2_le (a b : Z) : a <= b -> (pow2 a <= pow2 b)%Q.
Proof. intros H. apply Qpower_le_compat_l; [exact H|]. discriminate. Qed.

Lemma Qlog2_le (a : Q) : (0 < a)%Q -> (pow2 (Qlog2 a) <= a)%Q.
Proof.
  intros Ha. unfold Qlog2.
  destruct (Qle_bool _ a) eqn:E; [apply Qle_bool_iff; exact E|].
  destruct a as [p q]. cbn [Qnum Qden].
  assert (Hp : 0 < p).
  { unfold Qlt in Ha. cbn in Ha. lia. }
  pose proof (Z.log2_spec p Hp) as [Hp1 _].
  pose proof (Z.log2_spec (Z.pos q) (Pos2Z.is_pos q)) as [_ Hq2].
  pose proof (Z.log2_nonneg p) as Hlp.
  pose proof (Z.log2_nonneg (Z.pos q)) as Hlq.
  replace (Z.log2 p - Z.log2 (Z.pos q) - 1)
    with (Z.log2 p - Z.succ (Z.log2 (Z.pos q))) by lia.
  unfold pow2. rewrite Qpower_minus by discriminate.
  change 2%Q with (inject_Z 2).
  rewrite <- !Zpower_Qpower by lia.
  apply Qle_shift_div_r.
  - change 0%Q with (inject_Z 0). rewrite <- Zlt_Qlt. lia.
  - unfold Qle, Qmult, inject_Z. cbn [Qnum Qden].
    assert (0 < 2 ^ Z.log2 p) by (apply Z.pow_pos_nonneg; lia).
    nia.
Qed.

Lemma roundTiesToEven_error (y : Q) :
  (Qabs (inject_Z (roundTiesToEven y) - y) <= 1 # 2)%Q.
Proof.
  unfold roundTiesToEven.
  pose proof (Qfloor_le y) as Hlo. pose proof (Qlt_floor y) as Hhi.
  rewrite inject_Z_plus in Hhi. change (inject_Z 1) with 1%Q in Hhi.
  apply Qabs_Qle_condition.
  destruct (y - inject_Z (Qfloor y) ?= 1 # 2)%Q eqn:E.
  - apply Qeq_alt in E.
    destruct (Z.even (Qfloor y)); rewrite ?inject_Z_plus;
      change (inject_Z 1) with 1%Q; split; lra.
  - apply Qlt_alt in E. split; lra.
  - apply Qgt_alt in E. rewrite inject_Z_plus. change (inject_Z 1) with 1%Q.
    split; lra.
Qed.

Lemma roundTiesToEven_nonneg (y : Q) : (0 <= y)%Q -> 0 <= roundTiesToEven y.
Proof.
  intros Hy. unfold roundTiesToEven.
  assert (0 <= Qfloor y).
  { change 0 with (Qfloor 0). apply Qfloor_resp_le. exact Hy. }
  destruct (_ ?= _)%Q; [destruct (Z.even _)|..]; lia.
Qed.

Lemma roundTiesToEven_Z (n : Z) : roundTiesToEven (inject_Z n) = n.
Proof.
  unfold roundTiesToEven. rewrite Qfloor_Z.
  assert (E : (inject_Z n - inject_Z n ?= 1 # 2)%Q = Lt).
  { apply -> Qlt_alt. lra. }
  rewrite E. reflexivity.
Qed.

Lemma roundTiesToEven_comp (x y : Q) : (x == y)%Q -> roundTiesToEven x = roundTiesToEven y.
Proof.
  intros E. unfold roundTiesToEven. rewrite (Qfloor_comp _ _ E).
  assert (Ec : (x - inject_Z (Qfloor y) ?= 1 # 2)%Q = (y - inject_Z (Qfloor y) ?= 1 # 2)%Q).
  { apply Qcompare_comp; [rewrite E; reflexivity | reflexivity]. }
  rewrite Ec. reflexivity.
Qed.

(** The rounding error is at most half a unit in the last place. *)
Lemma Number_round_error (x : Q) :
  (Qabs (Number_round x - x) <= Qabs x * pow2 (-53) + pow2 (-1075))%Q.
Proof.
  unfold Number_round.
  destruct (Qeq_bool x 0) eqn:E0.
  - apply Qeq_bool_iff in E0.
    pose proof (pow2_pos (-53)). pose proof (pow2_pos (-1075)).
    pose proof (Qabs_nonneg x) as Ha.
    assert (E : (0 - x == 0)%Q) by lra.
    rewrite (Qabs_wd _ _ E). change (Qabs 0) with 0%Q. nra.
  - assert (Hx : ~ (x == 0)%Q).
    { intros H. apply Qeq_bool_iff in H. congruence. }
    set (a := Qabs x).
    assert (Ha : (0 < a)%Q).
    { unfold a. pose proof (Qabs_nonneg x).
      destruct (Qlt_le_dec 0 (Qabs x)) as [|Hle]; [assumption|].
      exfalso. apply Hx.
      assert (Qabs x <= 0)%Q by assumption.
      apply Qabs_Qle_condition in H0. lra. }
    set (e := Z.max (Qlog2 a - 52) (-1074)).
    set (P := pow2 e).
    assert (HP : (0 < P)%Q) by apply pow2_pos.
    set (m := inject_Z (roundTiesToEven (a / P))).
    pose proof (roundTiesToEven_error (a / P)) as Hm. fold m in Hm.
    apply Qabs_Qle_condition in Hm.
    assert (Ediv : (a / P * P == a)%Q) by (field; lra).
    assert (Herr : (- (P * (1 # 2)) <= m * P - a <= P * (1 # 2))%Q).
    { split; nra. }
    assert (Hhalf : (P * (1 # 2) <= a * pow2 (-53) + pow2 (-1075))%Q).
    { pose proof (pow2_pos (-53)). pose proof (pow2_pos (-1075)).
      unfold P, e.
      destruct (Z.max_spec (Qlog2 a - 52) (-1074)) as [[_ ->] | [_ ->]].
      - assert (E : (pow2 (-1075) == pow2 (-1074) * (1 # 2))%Q)
          by (change (-1075) with (-1074 + -1); apply pow2_plus).
        nra.
      - pose proof (Qlog2_le a Ha) as Hl.
        replace (Qlog2 a - 52) with (Qlog2 a + (-52)) by lia.
        rewrite pow2_plus.
        assert (E53 : (pow2 (-53) == pow2 (-52) * (1 # 2))%Q)
          by (change (-53) with (-52 + -1); apply pow2_plus).
        pose proof (pow2_pos (Qlog2 a)).
        nra. }
    apply Qabs_Qle_condition.
    destruct (Qle_bool 0 x) eqn:Es.
    + apply Qle_bool_iff in Es.
      assert (Eax : (a == x)%Q) by (apply Qabs_pos; exact Es).
      split; lra.
    + assert (Hneg : (x <= 0)%Q).
      { destruct (Qlt_le_dec 0 x) as [Hlt|]; [|assumption].
        exfalso. apply Qlt_le_weak, Qle_bool_iff in Hlt. congruence. }
      assert (Eax : (a == - x)%Q) by (apply Qabs_neg; exact Hneg).
      split; lra.
Qed.

Lemma Qlog2_lt (a : Q) : (0 < a)%Q -> (a < pow2 (Qlog2 a + 1))%Q.
Proof.
  intros Ha. unfold Qlog2.
  destruct (Qle_bool _ a) eqn:E.
  - destruct a as [p q]. cbn [Qnum Qden].
    assert (Hp : 0 < p).
    { unfold Qlt in Ha. cbn in Ha. lia. }
    pose proof (Z.log2_spec p Hp) as [_ Hp2].
    pose proof (Z.log2_spec (Z.pos q) (Pos2Z.is_pos q)) as [Hq1 _].
    pose proof (Z.log2_nonneg p) as Hlp.
    pose proof (Z.log2_nonneg (Z.pos q)) as Hlq.
    replace (Z.log2 p - Z.log2 (Z.pos q) + 1)
      with (Z.succ (Z.log2 p) - Z.log2 (Z.pos q)) by lia.
    unfold pow2. rewrite Qpower_minus by discriminate.
    change 2%Q with (inject_Z 2).
    rewrite <- !Zpower_Qpower by lia.
    apply Qlt_shift_div_l.
    + change 0%Q with (inject_Z 0). rewrite <- Zlt_Qlt.
      apply Z.pow_pos_nonneg; lia.
    + unfold Qlt, Qmult, inject_Z. cbn [Qnum Qden].
      assert (0 < 2 ^ Z.log2 (Z.pos q)) by (apply Z.pow_pos_nonneg; lia).
      nia.
  - replace (Z.log2 (Qnum a) - Z.log2 (Z.pos (Qden a)) - 1 + 1)
      with (Z.log2 (Qnum a) - Z.log2 (Z.pos (Qden a))) by lia.
    destruct (Qlt_le_dec a (pow2 (Z.log2 (Qnum a) - Z.log2 (Z.pos (Qden a)))))
      as [Hlt | Hle]; [exact Hlt|].
    apply Qle_bool_iff in Hle. congruence.
Qed.

Lemma Number_round_nonneg (x : Q) : (0 <= x)%Q -> (0 <= Number_round x)%Q.
Proof.
  intros Hx. unfold Number_round.
  destruct (Qeq_bool x 0); [lra|].
  apply Qle_bool_iff in Hx. rewrite Hx.
  apply Qmult_le_0_compat; [|apply Qlt_le_weak, pow2_pos].
  change 0%Q with (inject_Z 0). rewrite <- Zle_Qle.
  apply roundTiesToEven_nonneg.
  apply Qle_shift_div_l; [apply pow2_pos|].
  rewrite Qmult_0_l. apply Qabs_nonneg.
Qed.

Lemma Number_round_bound (x : Q) :
  (Qabs (Number_round x) <= 2 * Qabs x + 1)%Q.
Proof.
  pose proof (Number_round_error x) as H.
  assert (H53 : (pow2 (-53) <= 1)%Q) by (apply Qle_bool_iff; vm_compute; reflexivity).
  assert (H1075 : (pow2 (-1075) <= 1)%Q) by (apply Qle_bool_iff; vm_compute; reflexivity).
  pose proof (Qabs_nonneg x) as Ha.
  pose proof (pow2_pos (-53)).
  assert (Hb : (Qabs (Number_round x - x) <= Qabs x + 1)%Q) by nra.
  apply Qabs_Qle_condition in Hb.
  apply Qabs_Qle_condition.
  assert (Hx : (- Qabs x <= x <= Qabs x)%Q).
  { apply Qabs_Qle_condition. apply Qle_refl. }
  split; lra.
Qed.

(** An integer whose rounding keeps every bit is a JavaScript number. *)
Lemma Number_round_small_exponent (n : Z) :
  Z.max (Qlog2 (inject_Z (Z.abs n)) - 52) (-1074) <= 0 ->
  (Number_round (inject_Z n) == inject_Z n)%Q.
Proof.
  intros He. unfold Number_round.
  destruct (Qeq_bool (inject_Z n) 0) eqn:E0.
  - apply Qeq_bool_iff in E0. rewrite E0. reflexivity.
  - change (Qabs (inject_Z n)) with (inject_Z (Z.abs n)).
    set (a := inject_Z (Z.abs n)) in *.
    set (e := Z.max (Qlog2 a - 52) (-1074)) in *.
    assert (Epow : (pow2 e * inject_Z (2 ^ (- e)) == 1)%Q).
    { rewrite <- pow2_Z by lia. rewrite <- pow2_plus.
      replace (e + - e) with 0 by lia. reflexivity. }
    pose proof (pow2_pos e) as HP.
    assert (Ediv : (a / pow2 e == inject_Z (Z.abs n * 2 ^ (- e)))%Q).
    { rewrite inject_Z_mult. fold a.
      apply (Qmult_inj_r _ _ (pow2 e)); [lra|].
      rewrite <- Qmult_assoc, (Qmult_comm (inject_Z _) (pow2 e)), Epow.
      field. lra. }
    rewrite (roundTiesToEven_comp _ _ Ediv), roundTiesToEven_Z.
    rewrite inject_Z_mult.
    destruct (Qle_bool 0 (inject_Z n)) eqn:Es.
    + apply Qle_bool_iff in Es. change 0%Q with (inject_Z 0) in Es.
      rewrite <- Zle_Qle in Es. rewrite Z.abs_eq by exact Es.
      rewrite <- Qmult_assoc, (Qmult_comm (inject_Z _) (pow2 e)), Epow. ring.
    + assert (Hneg : n < 0).
      { destruct (Z.lt_ge_cases n 0) as [|Hge]; [assumption|].
        exfalso. rewrite (Zle_Qle 0 n) in Hge. apply Qle_bool_iff in Hge.
        change (inject_Z 0) with 0%Q in Hge. congruence. }
      rewrite Z.abs_neq by lia. rewrite inject_Z_opp.
      assert (E : (- (- inject_Z n * inject_Z (2 ^ (- e))) * pow2 e
                   == inject_Z n * (pow2 e * inject_Z (2 ^ (- e))))%Q) by ring.
      rewrite E, Epow. ring.
Qed.

(** Up to [2^53 - 1] every integer is a JavaScript number. *)
Lemma Number_round_safe (n : Z) :
  Z.abs n <= 2 ^ 53 - 1 -> (Number_round (inject_Z n) == inject_Z n)%Q.
Proof.
  intros Hn.
  destruct (Z.eq_dec n 0) as [-> | Hnz]; [reflexivity|].
  apply Number_round_small_exponent.
  set (a := inject_Z (Z.abs n)).
  assert (Ha : (0 < a)%Q).
  { unfold a. change 0%Q with (inject_Z 0). rewrite <- Zlt_Qlt. lia. }
  assert (Hl : Qlog2 a < 53).
  { apply (Qpower_lt_compat_l_inv 2); [|reflexivity].
    eapply Qle_lt_trans; [apply (Qlog2_le a Ha)|].
    change (2 ^ 53)%Q with (inject_Z (2 ^ 53)). unfold a.
    rewrite <- Zlt_Qlt. lia. }
  lia.
Qed.

(** The rounding of an integer is an integer. *)
Lemma Number_round_integer (n : Z) :
  exists z, (Number_round (inject_Z n) == inject_Z z)%Q.
Proof.
  destruct (Z_le_gt_dec (Z.max (Qlog2 (inject_Z (Z.abs n)) - 52) (-1074)) 0)
    as [He | He].
  - exists n. apply Number_round_small_exponent, He.
  - unfold Number_round.
    destruct (Qeq_bool (inject_Z n) 0); [exists 0; reflexivity|].
    change (Qabs (inject_Z n)) with (inject_Z (Z.abs n)).
    set (e := Z.max (Qlog2 (inject_Z (Z.abs n)) - 52) (-1074)) in *.
    set (m := roundTiesToEven (inject_Z (Z.abs n) / pow2 e)).
    destruct (Qle_bool 0 (inject_Z n)).
    + exists (m * 2 ^ e). rewrite inject_Z_mult, pow2_Z by lia. reflexivity.
    + exists (- m * 2 ^ e).
      rewrite inject_Z_mult, inject_Z_opp, pow2_Z by lia. reflexivity.
Qed.

(** The significand of the result has at most 53 bits: the result is a
    double, and by [Number_round_error] one nearest to the argument. *)
Lemma Number_round_significand (x : Q) :
  ~ (x == 0)%Q ->
  let e := Z.max (Qlog2 (Qabs x) - 52) (-1074) in
  0 <= roundTiesToEven (Qabs x / pow2 e) <= 2 ^ 53.
Proof.
  intros Hx e.
  set (a := Qabs x).
  assert (Ha : (0 < a)%Q).
  { unfold a. pose proof (Qabs_nonneg x).
    destruct (Qlt_le_dec 0 (Qabs x)) as [|Hle]; [assumption|].
    exfalso. apply Hx.
    assert (H0 : (Qabs x <= 0)%Q) by assumption.
    apply Qabs_Qle_condition in H0. lra. }
  pose proof (pow2_pos e) as HP.
  assert (Hy : (0 <= a / pow2 e)%Q).
  { apply Qle_shift_div_l; [exact HP|]. lra. }
  split; [apply roundTiesToEven_nonneg, Hy|].
  assert (Hlt : (a / pow2 e < inject_Z (2 ^ 53))%Q).
  { apply Qlt_shift_div_r; [exact HP|].
    rewrite <- pow2_Z by lia. rewrite <- pow2_plus.
    eapply Qlt_le_trans; [apply (Qlog2_lt a Ha)|].
    apply pow2_le. unfold e. fold a. lia. }
  pose proof (Qfloor_le (a / pow2 e)) as Hfl.
  assert (Hf : Qfloor (a / pow2 e) < 2 ^ 53).
  { rewrite Zlt_Qlt. eapply Qle_lt_trans; eassumption. }
  unfold roundTiesToEven.
  destruct (_ ?= _)%Q; [destruct (Z.even _)|..]; lia.
Qed.

(** [Number_add] is the rounded sum itself. *)
Lemma Number_add_rounded (a b : Z) :
  (inject_Z (Number_add a b) == Number_round (inject_Z (a + b)))%Q.
Proof.
  unfold Number_add.
  destruct (Number_round_integer (a + b)) as [z Hz].
  rewrite (Qfloor_comp _ _ Hz), Qfloor_Z, Hz. reflexivity.
Qed.

Lemma Number_add_safe (a b : Z) :
  Z.abs (a + b) <= MAX_SAFE_INTEGER -> Number_add a b = a + b.
Proof.
  intros H. unfold Number_add.
  rewrite (Qfloor_comp _ _ (Number_round_safe _ H)). apply Qfloor_Z.
Qed.

Lemma Number_add_nonneg (a b : Z) : 0 <= a + b -> 0 <= Number_add a b.
Proof.
  intros H. unfold Number_add. change 0 with (Qfloor 0).
  apply Qfloor_resp_le, Number_round_nonneg.
  change 0%Q with (inject_Z 0). rewrite <- Zle_Qle. exact H.
Qed.


Lemma Qabs_ratio (a b : Z) :
  0 < b -> (Qabs (inject_Z a / inject_Z b) <= inject_Z (Z.abs a))%Q.
Proof.
  intros Hb.
  assert (Hb' : (0 < inject_Z b)%Q).
  { change 0%Q with (inject_Z 0). rewrite <- Zlt_Qlt. exact Hb. }
  apply Qabs_Qle_condition. split.
  - apply Qle_shift_div_l; [exact Hb'|].
    rewrite <- inject_Z_opp, <- inject_Z_mult, <- Zle_Qle. nia.
  - apply Qle_shift_div_r; [exact Hb'|].
    rewrite <- inject_Z_mult, <- Zle_Qle. nia.
Qed.

Lemma Number_div_bound (a b B : Z) :
  0 < b -> Z.abs a <= B -> (Qabs (Number_div a b) <= inject_Z (2 * B + 1))%Q.
Proof.
  intros Hb Ha. unfold Number_div.
  pose proof (Number_round_bound (inject_Z a / inject_Z b)) as H.
  pose proof (Qabs_ratio a b Hb) as Hr.
  rewrite inject_Z_plus, inject_Z_mult.
  change (inject_Z 2) with 2%Q. change (inject_Z 1) with 1%Q.
  rewrite (Zle_Qle (Z.abs a) B) in Ha. lra.
Qed.

Lemma Number_div_nonneg (a b : Z) : 0 <= a -> 0 < b -> (0 <= Number_div a b)%Q.
Proof.
  intros Ha Hb. apply Number_round_nonneg.
  apply Qle_shift_div_l.
  - change 0%Q with (inject_Z 0). rewrite <- Zlt_Qlt. exact Hb.
  - rewrite Qmult_0_l. change 0%Q with (inject_Z 0). rewrite <- Zle_Qle. exact Ha.
Qed.


(** A value of magnitude at most [B < 10^21] is printed by [toFixed] in
    positional notation. *)
Lemma within_toFixed_range (x : Q) (B : Z) :
  (Qabs x <= inject_Z B)%Q -> B < 10 ^ 21 ->
  (- inject_Z (10 ^ 21) < x)%Q /\ (x < inject_Z (10 ^ 21))%Q.
Proof.
  intros Hx HB. apply Qabs_Qle_condition in Hx.
  rewrite (Zlt_Qlt B (10 ^ 21)) in HB. split; lra.
Qed.

(** ** Digit strings *)

Lemma all_digits_app (a b : string) :
  all_digits (a +:+ b) = all_digits a && all_digits b.
Proof.
  induction a as [|c a IH]; simpl; [reflexivity|].
  rewrite IH. apply andb_assoc.
Qed.

Lemma all_digits_zeros (n : nat) : all_digits (zeros n) = true.
Proof. induction n; simpl; auto. Qed.

Lemma length_zeros (n : nat) : String.length (zeros n) = n.
Proof. induction n; simpl; auto. Qed.

Lemma length_app (a b : string) :
  String.length (a +:+ b) = (String.length a + String.length b)%nat.
Proof. induction a; simpl; auto. Qed.

Lemma all_digits_take (n : nat) (s : string) :
  all_digits s = true -> all_digits (str_take n s) = true.
Proof.
  revert s; induction n as [|n IH]; intros [|c s]; simpl; auto.
  intros [Hc Hs]%andb_prop. rewrite Hc. simpl. auto.
Qed.

Lemma all_digits_drop (n : nat) (s : string) :
  all_digits s = true -> all_digits (str_drop n s) = true.
Proof.
  revert s; induction n as [|n IH]; intros [|c s]; simpl; auto.
  intros [_ Hs]%andb_prop. auto.
Qed.

Lemma length_take (n : nat) (s : string) :
  (n <= String.length s)%nat -> String.length (str_take n s) = n.
Proof.
  revert s; induction n as [|n IH]; intros [|c s]; simpl; auto; try lia.
  intros H. f_equal. apply IH. lia.
Qed.

Lemma length_drop (n : nat) (s : string) :
  String.length (str_drop n s) = (String.length s - n)%nat.
Proof.
  revert s; induction n as [|n IH]; intros [|c s]; simpl; auto.
Qed.

Lemma all_digits_uint (d : Decimal.uint) :
  all_digits (NilEmpty.string_of_uint d) = true.
Proof. induction d; simpl; auto. Qed.

Lemma all_digits_digits (n : Z) : all_digits (digits n) = true.
Proof.
  unfold digits, NilZero.string_of_uint.
  destruct (N.to_uint (Z.to_N n)) eqn:E; try reflexivity;
    rewrite <- E; apply all_digits_uint.
Qed.

Lemma digits_nonempty (n : Z) : (1 <= String.length (digits n))%nat.
Proof.
  unfold digits, NilZero.string_of_uint.
  destruct (N.to_uint (Z.to_N n)); simpl; lia.
Qed.

Lemma split_dot_digits (a b : string) :
  all_digits a = true -> split_dot (a +:+ "." +:+ b) = Some (a, b).
Proof.
  induction a as [|c a IH]; simpl; [reflexivity|].
  intros [Hc Ha]%andb_prop.
  destruct (Ascii.eqb c ".") eqn:E.
  - apply Ascii.eqb_eq in E. subst c. discriminate Hc.
  - rewrite IH by assumption. reflexivity.
Qed.

Lemma strip_minus_digits (s : string) :
  all_digits s = true -> strip_minus s = s.
Proof.
  destruct s as [|c s]; simpl; [reflexivity|].
  intros [Hc _]%andb_prop.
  destruct (Ascii.eqb c "-") eqn:E; [|reflexivity].
  apply Ascii.eqb_eq in E. subst c. discriminate Hc.
Qed.

Lemma nonempty_eqb (s : string) :
  (1 <= String.length s)%nat -> negb (String.eqb s EmptyString) = true.
Proof. destruct s; simpl; [lia | reflexivity]. Qed.

(** The shape [toFixed] builds: digits, a dot, [f] digits. *)
Lemma has_decimals_intro (f : nat) (a b : string) :
  (1 <= String.length a)%nat -> all_digits a = true -> all_digits b = true ->
  String.length b = f ->
  has_decimals f (a +:+ "." +:+ b) = true
  /\ has_decimals f ("-" +:+ a +:+ "." +:+ b) = true.
Proof.
  intros Hne Ha Hb Hlen.
  assert (Hbody : match split_dot (a +:+ "." +:+ b) with
                  | Some (a0, b0) =>
                      negb (String.eqb a0 EmptyString) && all_digits a0
                      && all_digits b0 && Nat.eqb (String.length b0) f
                  | None => false
                  end = true).
  { rewrite split_dot_digits by assumption.
    rewrite nonempty_eqb, Ha, Hb by assumption. simpl.
    apply Nat.eqb_eq. assumption. }
  split; unfold has_decimals.
  - destruct a as [|c a]; [simpl in Hne; lia|].
    simpl in Ha. apply andb_prop in Ha as [Hc Ha].
    replace (strip_minus (String c a +:+ "." +:+ b)) with (String c a +:+ "." +:+ b).
    + exact Hbody.
    + simpl. destruct (Ascii.eqb c "-") eqn:E; [|reflexivity].
      apply Ascii.eqb_eq in E. subst c. discriminate Hc.
  - simpl. exact Hbody.
Qed.

(** ** The output of [toFixed] *)

Lemma toFixed_magnitude_shape (f : nat) (x : Q) :
  (0 < f)%nat -> Qle_bool (inject_Z (10 ^ 21)) x = false ->
  exists a b, toFixed_magnitude f x = a +:+ "." +:+ b
    /\ (1 <= String.length a)%nat /\ all_digits a = true
    /\ all_digits b = true /\ String.length b = f.
Proof.
  intros Hf Hx. unfold toFixed_magnitude. rewrite Hx.
  destruct f as [|f]; [lia|].
  set (m := digits _).
  pose proof (all_digits_digits (Qfloor (x * inject_Z (10 ^ Z.of_nat (S f)) + (1 # 2)))) as Hm.
  pose proof (digits_nonempty (Qfloor (x * inject_Z (10 ^ Z.of_nat (S f)) + (1 # 2)))) as Hk.
  fold m in Hm, Hk.
  destruct (String.length m <=? S f)%nat eqn:E.
  - apply Nat.leb_le in E.
    set (m' := zeros (S f + 1 - String.length m) +:+ m).
    assert (Hlen : String.length m' = (S f + 1)%nat).
    { unfold m'. rewrite length_app, length_zeros. lia. }
    assert (Hd : all_digits m' = true).
    { unfold m'. rewrite all_digits_app, all_digits_zeros, Hm. reflexivity. }
    exists (str_take (S f + 1 - S f) m'), (str_drop (S f + 1 - S f) m').
    repeat split.
    + rewrite length_take; lia.
    + apply all_digits_take, Hd.
    + apply all_digits_drop, Hd.
    + rewrite length_drop. lia.
  - apply Nat.leb_gt in E.
    exists (str_take (String.length m - S f) m), (str_drop (String.length m - S f) m).
    repeat split.
    + rewrite length_take; lia.
    + apply all_digits_take, Hm.
    + apply all_digits_drop, Hm.
    + rewrite length_drop. lia.
Qed.

Lemma toFixed_has_decimals (f : nat) (x : Q) :
  (0 < f)%nat ->
  (- inject_Z (10 ^ 21) < x)%Q -> (x < inject_Z (10 ^ 21))%Q ->
  has_decimals f (toFixed f x) = true.
Proof.
  intros Hf Hlo Hhi. unfold toFixed.
  destruct (Qle_bool 0 x) eqn:Hsign.
  - destruct (toFixed_magnitude_shape f x Hf) as (a & b & -> & Ha & Hda & Hdb & Hb).
    + destruct (Qle_bool (inject_Z (10 ^ 21)) x) eqn:E; [|reflexivity].
      apply Qle_bool_iff in E. exfalso. exact (Qlt_not_le _ _ Hhi E).
    + apply (has_decimals_intro f a b); assumption.
  - destruct (toFixed_magnitude_shape f (- x) Hf) as (a & b & -> & Ha & Hda & Hdb & Hb).
    + destruct (Qle_bool (inject_Z (10 ^ 21)) (- x)) eqn:E; [|reflexivity].
      apply Qle_bool_iff in E. exfalso.
      apply (Qlt_not_le _ _ Hlo). apply Qopp_le_compat in E.
      rewrite Qopp_involutive in E. exact E.
    + apply (has_decimals_intro f a b); assumption.
Qed.

Lemma ratio_in_range (a b B : Z) :
  0 < b -> Z.abs a < B ->
  (- inject_Z B < inject_Z a / inject_Z b)%Q
  /\ (inject_Z a / inject_Z b < inject_Z B)%Q.
Proof.
  intros Hb Ha.
  assert (Hb' : (inject_Z 0 < inject_Z b)%Q) by (rewrite <- Zlt_Qlt; exact Hb).
  split.
  - apply Qlt_shift_div_l; [exact Hb'|].
    rewrite <- inject_Z_opp, <- inject_Z_mult, <- Zlt_Qlt. nia.
  - apply Qlt_shift_div_r; [exact Hb'|].
    rewrite <- inject_Z_mult, <- Zlt_Qlt. nia.
Qed.

Lemma percentage_in_range (a b B : Z) :
  0 < b -> Z.abs a * 100 < B ->
  (- inject_Z B < inject_Z a / inject_Z b * inject_Z 100)%Q
  /\ (inject_Z a / inject_Z b * inject_Z 100 < inject_Z B)%Q.
Proof.
  intros Hb Ha.
  assert (Hb' : ~ (inject_Z b == 0)%Q).
  { intros H. rewrite (Zlt_Qlt 0 b) in Hb. rewrite H in Hb. exact (Qlt_irrefl _ Hb). }
  assert (E : (inject_Z a / inject_Z b * inject_Z 100 == inject_Z (a * 100) / inject_Z b)%Q).
  { rewrite inject_Z_mult. field. exact Hb'. }
  rewrite E. apply ratio_in_range; [exact Hb|].
  rewrite Z.abs_mul. simpl Z.abs. exact Ha.
Qed.

Lemma Number_toString_integer (z : Z) :
  Z.abs z <= MAX_SAFE_INTEGER -> is_integer_string (Number_toString z) = true.
Proof.
  intros Hz. unfold Number_toString, render_magnitude, is_integer_string.
  destruct (z <? 0) eqn:Hs.
  - apply Z.ltb_lt in Hs.
    destruct (- z <=? MAX_SAFE_INTEGER) eqn:E; [|apply Z.leb_gt in E; lia].
    simpl. rewrite nonempty_eqb by apply digits_nonempty.
    apply all_digits_digits.
  - apply Z.ltb_ge in Hs.
    destruct (z <=? MAX_SAFE_INTEGER) eqn:E; [|apply Z.leb_gt in E; lia].
    rewrite strip_minus_digits by apply all_digits_digits.
    rewrite nonempty_eqb by apply digits_nonempty.
    apply all_digits_digits.
Qed.

(** ** The record normaliser *)

Lemma default_mode_field {B} (m : option Raw.ModeStats) (p : Raw.ModeStats -> option B) :
  p Raw.noModeStats = None ->
  p (default Raw.noModeStats m) = opt_chain m p.
Proof. destruct m; simpl; auto. Qed.

Lemma default_basic_field {B} (b : option Raw.BasicInfo) (p : Raw.BasicInfo -> option B) :
  p Raw.noBasicInfo = None ->
  p (default Raw.noBasicInfo b) = opt_chain b p.
Proof. destruct b; simpl; auto. Qed.


Lemma or_num_nonneg (x : option Z) :
  non_negative x = true -> 0 <= or_num x 0.
Proof.
  unfold non_negative, or_num.
  destruct x as [n|]; [|lia].
  intros H%Z.leb_le. destruct (n =? 0); lia.
Qed.




Lemma Number_toString_digits (z : Z) :
  Z.abs z <= MAX_SAFE_INTEGER ->
  Number_toString z = (if z <? 0 then "-" else "") +:+ digits (Z.abs z).
Proof.
  intros Hz. unfold Number_toString, render_magnitude.
  destruct (z <? 0) eqn:Hs.
  - apply Z.ltb_lt in Hs.
    destruct (- z <=? MAX_SAFE_INTEGER) eqn:E; [|apply Z.leb_gt in E; lia].
    rewrite Z.abs_neq by lia. reflexivity.
  - apply Z.ltb_ge in Hs.
    destruct (z <=? MAX_SAFE_INTEGER) eqn:E; [|apply Z.leb_gt in E; lia].
    rewrite Z.abs_eq by lia. reflexivity.
Qed.


(** ** The rank labels *)

Lemma to_uint_nonnil (n : N) : N.to_uint n <> Decimal.Nil.
Proof.
  intros E. pose proof (DecimalN.Unsigned.to_of (N.to_uint n)) as H.
  rewrite DecimalN.Unsigned.of_to, E in H. discriminate H.
Qed.

Lemma digits_inj (n m : Z) : 0 <= n -> 0 <= m -> digits n = digits m -> n = m.
Proof.
  intros Hn Hm E. unfold digits in E.
  apply (f_equal NilZero.uint_of_string) in E.
  rewrite !NilZero.usu in E by apply to_uint_nonnil.
  injection E as E. apply DecimalN.Unsigned.to_uint_inj in E.
  apply Z2N.inj; assumption.
Qed.

(** What the table gives: nothing, one of its ten names, or the inherited
    property of that name. *)
Lemma rankNames_cases (key : string) :
  rankNames key = None
  \/ (exists name,
        rankNames key = Some (Text name)
        /\ In name [ "Grandmaster"; "Diamond I"; "Diamond II"; "Diamond III";
                     "Platinum I"; "Platinum II"; "Platinum III"; "Gold I";
                     "Gold II"; "Gold III" ]%string)
  \/ rankNames key = Some (Inherited key).
Proof.
  unfold rankNames, own_property.
  repeat match goal with
         | |- context [String.eqb key ?k] =>
             destruct (String.eqb key k);
               [right; left; eexists; split; [reflexivity | simpl; tauto]|]
         end.
  destruct (existsb _ _); [right; right | left]; reflexivity.
Qed.

(** A key that is neither the string of a code nor an inherited name. *)
Lemma rankNames_other (key : string) :
  ~ In key ["220"; "219"; "218"; "217"; "216"; "215"; "214"; "213"; "212"; "211"]%string ->
  ~ In key Object_prototype ->
  rankNames key = None.
Proof.
  intros Hown Hinh. unfold rankNames, own_property, existsb, Object_prototype.
  repeat match goal with
         | |- context [String.eqb key ?k] =>
             destruct (String.eqb_spec key k) as [E|_];
               [exfalso;
                first [apply Hown; rewrite E; simpl; tauto
                      | apply Hinh; rewrite E; unfold Object_prototype; simpl; tauto]|]
         end.
  reflexivity.
Qed.

Lemma rankNames_inherited (key : string) :
  In key Object_prototype -> rankNames key = Some (Inherited key).
Proof.
  unfold Object_prototype. intros Hin.
  repeat (destruct Hin as [<- | Hin]; [reflexivity|]).
  destruct Hin.
Qed.

Lemma not_all_digits_inherited (key : string) :
  all_digits (strip_minus key) = true -> ~ In key Object_prototype.
Proof.
  unfold Object_prototype. intros Hd Hin.
  repeat (destruct Hin as [<- | Hin]; [discriminate Hd|]).
  destruct Hin.
Qed.

(** The key of a safe integer outside 211-220 names no property. *)
Lemma rankNames_unmapped (c : Z) :
  Z.abs c <= MAX_SAFE_INTEGER -> ~ (211 <= c <= 220) ->
  rankNames (Number_toString c) = None.
Proof.
  intros Hsafe Hout. rewrite Number_toString_digits by exact Hsafe.
  apply rankNames_other.
  - destruct (c <? 0) eqn:Hs.
    + change ("-" +:+ digits (Z.abs c))
        with (String "-"%char (digits (Z.abs c))).
      cbn [In]. intros H.
      repeat (destruct H as [H | H]; [discriminate H|]). exact H.
    + apply Z.ltb_ge in Hs. rewrite Z.abs_eq by exact Hs.
      change (EmptyString +:+ digits c) with (digits c).
      assert (Hk : forall m, 211 <= m <= 220 -> digits m <> digits c).
      { intros m Hm E. apply digits_inj in E; lia. }
      cbn [In]. intros H.
      destruct H as [H | H]; [exact (Hk 220 ltac:(lia) H)|].
      destruct H as [H | H]; [exact (Hk 219 ltac:(lia) H)|].
      destruct H as [H | H]; [exact (Hk 218 ltac:(lia) H)|].
      destruct H as [H | H]; [exact (Hk 217 ltac:(lia) H)|].
      destruct H as [H | H]; [exact (Hk 216 ltac:(lia) H)|].
      destruct H as [H | H]; [exact (Hk 215 ltac:(lia) H)|].
      destruct H as [H | H]; [exact (Hk 214 ltac:(lia) H)|].
      destruct H as [H | H]; [exact (Hk 213 ltac:(lia) H)|].
      destruct H as [H | H]; [exact (Hk 212 ltac:(lia) H)|].
      destruct H as [H | H]; [exact (Hk 211 ltac:(lia) H)|].
      exact H.
  - apply not_all_digits_inherited.
    destruct (c <? 0).
    + change (strip_minus ("-" +:+ digits (Z.abs c))) with (digits (Z.abs c)).
      apply all_digits_digits.
    + change (EmptyString +:+ digits (Z.abs c)) with (digits (Z.abs c)).
      rewrite strip_minus_digits; apply all_digits_digits.
Qed.

Lemma rank_eq accountData statsData uid region :
  let code := opt_chain (Raw.basicInfo accountData) Raw.rank in
  rank (combinePlayerData accountData statsData uid region) =
    or_label (rankNames_at code)
      (Text ("Rank " +:+
             match code with
             | Some c => if truthy (Some c) then ToString c else "Unknown"
             | None => "Unknown"
             end)).
Proof.
  cbn [rank combinePlayerData].
  rewrite !(default_basic_field _ Raw.rank) by reflexivity. reflexivity.
Qed.

Lemma maxRank_eq accountData statsData uid region :
  let code := opt_chain (Raw.basicInfo accountData) Raw.maxRank in
  maxRank (combinePlayerData accountData statsData uid region) =
    or_label (rankNames_at code) (Text "Unknown").
Proof.
  cbn [maxRank combinePlayerData].
  rewrite (default_basic_field _ Raw.maxRank) by reflexivity. reflexivity.
Qed.

(** C5, as amended.  For a rank that is absent, [null] or a JSON scalar, the
    [rank] field is
    - the named tier for each of the ten codes, given as a number or as its
      decimal string: 220 Grandmaster, 219 to 217 Diamond I to III, 216 to
      214 Platinum I to III, 213 to 211 Gold I to III;
    - ["Rank <code>"] for every other safe integer except [0] (999 gives
      ["Rank 999"]), for [true], and for every non-empty string that is
      neither the string of a code nor the name of a property inherited
      from [Object.prototype];
    - ["Rank Unknown"] when the rank is absent, [null], [0], [false] or the
      empty string;
    - for a string that names an inherited property ([constructor],
      [toString], ...), that inherited value, which is not a string. *)
Theorem rank_label accountData statsData uid region :
  let code := opt_chain (Raw.basicInfo accountData) Raw.rank in
  let r := combinePlayerData accountData statsData uid region in
  (forall c name,
     In (c, name)
       [ (220, "Grandmaster"); (219, "Diamond I"); (218, "Diamond II");
         (217, "Diamond III"); (216, "Platinum I"); (215, "Platinum II");
         (214, "Platinum III"); (213, "Gold I"); (212, "Gold II");
         (211, "Gold III") ]%string ->
     code = Some (SNum c) \/ code = Some (SStr (digits c)) ->
     rank r = Text name)
  /\ (forall c, code = Some (SNum c) -> ~ (211 <= c <= 220) -> c <> 0 ->
        Z.abs c <= MAX_SAFE_INTEGER ->
        rank r =
          Text ("Rank " +:+ (if c <? 0 then "-" else "") +:+ digits (Z.abs c)))
  /\ (code = Some (SNum 999) -> rank r = Text "Rank 999")
  /\ (code = None \/ code = Some (SNum 0) \/ code = Some (SBool false)
      \/ code = Some (SStr EmptyString) ->
      rank r = Text "Rank Unknown")
  /\ (code = Some (SBool true) -> rank r = Text "Rank true")
  /\ (forall s, code = Some (SStr s) -> s <> EmptyString ->
        ~ In s ["220"; "219"; "218"; "217"; "216"; "215"; "214"; "213";
                "212"; "211"]%string ->
        ~ In s Object_prototype ->
        rank r = Text ("Rank " +:+ s))
  /\ (forall s, code = Some (SStr s) -> In s Object_prototype ->
        rank r = Inherited s).
Proof.
  intros code r.
  pose proof (rank_eq accountData statsData uid region) as E.
  cbv zeta in E. fold code r in E.
  split; [|split; [|split; [|split; [|split; [|split]]]]].
  - intros c name Hin Hc. rewrite E. simpl in Hin.
    repeat (destruct Hin as [[= <- <-] | Hin];
            [destruct Hc as [-> | ->]; reflexivity|]).
    destruct Hin.
  - intros c Hc Hout Hnz Hsafe. rewrite E, Hc.
    cbn [rankNames_at ToString truthy].
    rewrite (rankNames_unmapped c Hsafe Hout). cbn [or_label].
    destruct (c =? 0) eqn:Ez; [apply Z.eqb_eq in Ez; contradiction|].
    cbn [negb]. rewrite Number_toString_digits by exact Hsafe. reflexivity.
  - intros Hc. rewrite E, Hc. vm_compute. reflexivity.
  - intros [Hc | [Hc | [Hc | Hc]]]; rewrite E, Hc; reflexivity.
  - intros Hc. rewrite E, Hc. reflexivity.
  - intros s Hc Hne Hown Hinh. rewrite E, Hc.
    cbn [rankNames_at ToString truthy].
    rewrite (rankNames_other s Hown Hinh). cbn [or_label].
    destruct (String.eqb_spec s EmptyString) as [->|_]; [contradiction|].
    reflexivity.
  - intros s Hc Hinh. rewrite E, Hc. cbn [rankNames_at ToString].
    rewrite (rankNames_inherited s Hinh). reflexivity.
Qed.

(** C8, as amended.  For a maxRank that is absent, [null] or a JSON scalar,
    the [maxRank] field is the named tier for each of the ten codes, given
    as a number or as its decimal string, and exactly ["Unknown"] for every
    other safe integer, for a boolean, for an absent code and for every
    string that is neither the string of a code nor the name of a property
    inherited from [Object.prototype]; it is never of the form
    ["Rank <code>"].  For a string that names an inherited property the
    field is that inherited value, not ["Unknown"]. *)
Theorem maxRank_label accountData statsData uid region :
  let code := opt_chain (Raw.basicInfo accountData) Raw.maxRank in
  let r := combinePlayerData accountData statsData uid region in
  (forall c name,
     In (c, name)
       [ (220, "Grandmaster"); (219, "Diamond I"); (218, "Diamond II");
         (217, "Diamond III"); (216, "Platinum I"); (215, "Platinum II");
         (214, "Platinum III"); (213, "Gold I"); (212, "Gold II");
         (211, "Gold III") ]%string ->
     code = Some (SNum c) \/ code = Some (SStr (digits c)) ->
     maxRank r = Text name)
  /\ (forall c, code = Some (SNum c) -> ~ (211 <= c <= 220) ->
        Z.abs c <= MAX_SAFE_INTEGER -> maxRank r = Text "Unknown")
  /\ (code = None -> maxRank r = Text "Unknown")
  /\ (forall b, code = Some (SBool b) -> maxRank r = Text "Unknown")
  /\ (forall s, code = Some (SStr s) ->
        ~ In s ["220"; "219"; "218"; "217"; "216"; "215"; "214"; "213";
                "212"; "211"]%string ->
        ~ In s Object_prototype ->
        maxRank r = Text "Unknown")
  /\ (forall s, code = Some (SStr s) -> In s Object_prototype ->
        maxRank r = Inherited s)
  /\ (forall s, maxRank r <> Text ("Rank " +:+ s)).
Proof.
  intros code r.
  pose proof (maxRank_eq accountData statsData uid region) as E.
  cbv zeta in E. fold code r in E.
  split; [|split; [|split; [|split; [|split; [|split]]]]].
  - intros c name Hin Hc. rewrite E. simpl in Hin.
    repeat (destruct Hin as [[= <- <-] | Hin];
            [destruct Hc as [-> | ->]; reflexivity|]).
    destruct Hin.
  - intros c Hc Hout Hsafe. rewrite E, Hc. cbn [rankNames_at ToString].
    rewrite (rankNames_unmapped c Hsafe Hout). reflexivity.
  - intros Hc. rewrite E, Hc. reflexivity.
  - intros b Hc. rewrite E, Hc. destruct b; reflexivity.
  - intros s Hc Hown Hinh. rewrite E, Hc. cbn [rankNames_at ToString].
    rewrite (rankNames_other s Hown Hinh). reflexivity.
  - intros s Hc Hinh. rewrite E, Hc. cbn [rankNames_at ToString].
    rewrite (rankNames_inherited s Hinh). reflexivity.
  - intros s Hs. rewrite E in Hs.
    destruct (rankNames_at code) as [l|] eqn:El; [|discriminate Hs].
    assert (Hkey : exists key, rankNames key = Some l).
    { destruct code as [v|]; [|discriminate El]. eexists. exact El. }
    destruct Hkey as [key Hkey].
    destruct (rankNames_cases key) as [Hn | [(name & Hname & Hin) | Hi]].
    + rewrite Hn in Hkey. discriminate Hkey.
    + rewrite Hname in Hkey. injection Hkey as <-.
      simpl in Hin.
      repeat (destruct Hin as [<- | Hin]; [discriminate Hs|]).
      destruct Hin.
    + rewrite Hi in Hkey. injection Hkey as <-. discriminate Hs.
Qed.

(** C6, as amended.  When every upstream number the record is computed from
    is non-negative where present, every numeric field of the record is
    non-negative; absent numbers count as [0]. *)
Theorem numeric_fields_non_negative accountData statsData uid region :
  forallb non_negative (numeric_inputs accountData statsData) = true ->
  let r := combinePlayerData accountData statsData uid region in
  0 <= level r /\ 0 <= likes r /\ 0 <= rankingPoints r /\ 0 <= totalMatches r
  /\ 0 <= totalWins r /\ 0 <= totalKills r /\ 0 <= headshots r /\ 0 <= damage r
  /\ 0 <= badgeCount r.
Proof.
  intros H. split_forallb H.
  cbn [level likes rankingPoints totalMatches totalWins totalKills headshots
       damage badgeCount combinePlayerData].
  rewrite !default_mode_field by reflexivity.
  rewrite !(default_basic_field (Raw.basicInfo accountData)) by reflexivity.
  repeat match goal with
         | Hs : non_negative _ = true |- _ => apply or_num_nonneg in Hs
         end.
  repeat split; try apply Number_add_nonneg; lia.
Qed.

(** ** The cache read *)

Lemma cache_get_fresh_run (key : string) (w : World) :
  cache_get_fresh key w =
    (Normal (match searchCache w !! key with
             | Some entry =>
                 if clock w - timestamp entry <? CACHE_DURATION
                 then Some (data entry) else None
             | None => None
             end), w).
Proof.
  unfold cache_get_fresh, mbind, M_bind, cache_get, Date_now, mret, M_ret.
  destruct (searchCache w !! key) as [entry|]; [|reflexivity].
  destruct (clock w - timestamp entry <? CACHE_DURATION); reflexivity.
Qed.

Lemma cache_get_fresh_miss (key : string) (w : World) :
  has_fresh_entry key w = false -> cache_get_fresh key w = (Normal None, w).
Proof.
  intros H. rewrite cache_get_fresh_run. unfold has_fresh_entry in H.
  destruct (searchCache w !! key) as [entry|]; [|reflexivity].
  rewrite H. reflexivity.
Qed.

Lemma cache_get_fresh_hit (key : string) (w : World) (entry : CacheEntry) :
  searchCache w !! key = Some entry ->
  clock w - timestamp entry < CACHE_DURATION ->
  cache_get_fresh key w = (Normal (Some (data entry)), w).
Proof.
  intros Hk Hage. rewrite cache_get_fresh_run, Hk.
  apply Z.ltb_lt in Hage. rewrite Hage. reflexivity.
Qed.

(** ** The fetch functions, path by path *)

(** A call that finds a fresh entry returns its data and sends no request. *)
Lemma fetchPlayerStats_hit uid region w entry :
  searchCache w !! stats_cacheKey uid region = Some entry ->
  clock w - timestamp entry < CACHE_DURATION ->
  fetchPlayerStats uid region w =
    (Normal (Some (data entry)), logged ("Using cached data for " +:+ uid) w).
Proof.
  intros Hk Hage. unfold fetchPlayerStats.
  unfold mbind at 1. unfold M_bind at 1.
  rewrite (cache_get_fresh_hit _ _ _ Hk Hage). reflexivity.
Qed.

(** A call that finds no fresh entry goes upstream: the account request,
    then the stats request, then the cache write. *)
Lemma fetchPlayerStats_miss uid region w :
  has_fresh_entry (stats_cacheKey uid region) w = false ->
  fetchPlayerStats uid region w =
    let failed e w' :=
      (Normal None, logged ("Primary source failed: " +:+ error_message e) w') in
    let '(dt, account) := network w (accountUrl uid region) (clock w) in
    let wa := requested (accountUrl uid region) dt w in
    match account with
    | Rejected e => failed e wa
    | Fulfilled None =>
        failed (Error "Cannot read properties of null (reading 'error')") wa
    | Fulfilled (Some accountData) =>
        if truthy (Raw.error accountData)
        then failed (Error (default EmptyString (Raw.message accountData))) wa
        else
          let '(dt', stats) := network w (statsUrl uid region) (clock w + dt) in
          let ws := requested (statsUrl uid region) dt' wa in
          match stats with
          | Rejected e => failed e ws
          | Fulfilled statsData =>
              let combinedData := combinePlayerData accountData statsData uid region in
              (Normal (Some (PlayerData combinedData)),
               with_cache
                 (<[stats_cacheKey uid region :=
                      {| data := PlayerData combinedData; timestamp := clock ws |}]>
                    (searchCache ws)) ws)
          end
    end.
Proof.
  intros Hmiss. unfold fetchPlayerStats.
  unfold mbind at 1. unfold M_bind at 1.
  rewrite (cache_get_fresh_miss _ _ Hmiss). run_monad.
  destruct (network w (accountUrl uid region) (clock w)) as [dt [[acc|]|e]];
    try reflexivity.
  destruct (truthy (Raw.error acc)); [reflexivity|].
  change (network (requested (accountUrl uid region) dt w))
    with (network w).
  change (clock (requested (accountUrl uid region) dt w))
    with (clock w + dt).
  destruct (network w (statsUrl uid region) (clock w + dt)) as [dt' [stats|e]];
    reflexivity.
Qed.

Lemma fetchGuildInfo_hit guildId region w entry :
  searchCache w !! guild_cacheKey guildId region = Some entry ->
  clock w - timestamp entry < CACHE_DURATION ->
  fetchGuildInfo guildId region w = (Normal (Some (data entry)), w).
Proof.
  intros Hk Hage. unfold fetchGuildInfo.
  unfold mbind at 1. unfold M_bind at 1.
  rewrite (cache_get_fresh_hit _ _ _ Hk Hage). reflexivity.
Qed.

Lemma fetchGuildInfo_miss guildId region w :
  has_fresh_entry (guild_cacheKey guildId region) w = false ->
  fetchGuildInfo guildId region w =
    let failed e w' :=
      (Normal None, logged ("Guild fetch failed: " +:+ error_message e) w') in
    let '(dt, response) := network w (guildUrl guildId region) (clock w) in
    let wg := requested (guildUrl guildId region) dt w in
    match response with
    | Rejected e => failed e wg
    | Fulfilled None =>
        failed (Error "Cannot read properties of null (reading 'error')") wg
    | Fulfilled (Some guildData) =>
        if truthy (Raw.error guildData)
        then (Normal None, wg)
        else
          (Normal (Some (RawData guildData)),
           with_cache
             (<[guild_cacheKey guildId region :=
                  {| data := RawData guildData; timestamp := clock wg |}]>
                (searchCache wg)) wg)
    end.
Proof.
  intros Hmiss. unfold fetchGuildInfo.
  unfold mbind at 1. unfold M_bind at 1.
  rewrite (cache_get_fresh_miss _ _ Hmiss). run_monad.
  destruct (network w (guildUrl guildId region) (clock w)) as [dt [[g|]|e]];
    try reflexivity.
  destruct (truthy (Raw.error g)); reflexivity.
Qed.

Lemma fresh_entry_cases (key : string) (w : World) :
  (exists entry, searchCache w !! key = Some entry
                 /\ clock w - timestamp entry < CACHE_DURATION)
  \/ has_fresh_entry key w = false.
Proof.
  unfold has_fresh_entry.
  destruct (searchCache w !! key) as [entry|]; [|right; reflexivity].
  destruct (clock w - timestamp entry <? CACHE_DURATION) eqn:E.
  - left. exists entry. apply Z.ltb_lt in E. auto.
  - right. reflexivity.
Qed.

(** ** The sweep *)

Lemma with_cache_id (w : World) : with_cache (searchCache w) w = w.
Proof. destruct w; reflexivity. Qed.

Lemma for_of_sweep (now : Z) (l : list (string * CacheEntry)) (w : World) :
  for_of l (sweep_entry now) w =
    (Normal tt, with_cache (foldl (sweep_step now) (searchCache w) l) w).
Proof.
  revert w. induction l as [|kv l IH]; intros w.
  - cbn. rewrite with_cache_id. reflexivity.
  - cbn [for_of foldl]. unfold mbind, M_bind, sweep_entry, sweep_step at 2.
    destruct (now - timestamp kv.2 >? CACHE_DURATION * 2).
    + unfold cache_delete. rewrite IH. reflexivity.
    + unfold mret, M_ret. rewrite IH. reflexivity.
Qed.

Lemma sweep_fold_absent (now : Z) (l : list (string * CacheEntry))
    (c : gmap string CacheEntry) (k : string) :
  c !! k = None -> foldl (sweep_step now) c l !! k = None.
Proof.
  revert c. induction l as [|kv l IH]; intros c Hc; [exact Hc|].
  cbn [foldl]. apply IH. unfold sweep_step.
  destruct (now - timestamp kv.2 >? CACHE_DURATION * 2); [|exact Hc].
  destruct (decide (kv.1 = k)) as [->|Hne].
  - apply lookup_delete_eq.
  - rewrite lookup_delete_ne by exact Hne. exact Hc.
Qed.

Lemma sweep_fold_removed (now : Z) (l : list (string * CacheEntry))
    (c : gmap string CacheEntry) (k : string) (e : CacheEntry) :
  (k, e) ∈ l -> now - timestamp e > CACHE_DURATION * 2 ->
  foldl (sweep_step now) c l !! k = None.
Proof.
  intros Hin Hold. revert c.
  induction l as [|kv l IH]; intros c; [inversion Hin|].
  cbn [foldl]. apply elem_of_cons in Hin as [<- | Hin].
  - apply sweep_fold_absent. unfold sweep_step. cbn [fst snd].
    apply Z.gt_lt, Z.gtb_lt in Hold. rewrite Hold. apply lookup_delete_eq.
  - apply IH. exact Hin.
Qed.

Lemma sweep_fold_kept (now : Z) (l : list (string * CacheEntry))
    (c : gmap string CacheEntry) (k : string) :
  (forall e, (k, e) ∈ l -> ~ now - timestamp e > CACHE_DURATION * 2) ->
  foldl (sweep_step now) c l !! k = c !! k.
Proof.
  revert c. induction l as [|kv l IH]; intros c Hyoung; [reflexivity|].
  cbn [foldl]. rewrite IH.
  - unfold sweep_step.
    destruct (now - timestamp kv.2 >? CACHE_DURATION * 2) eqn:E; [|reflexivity].
    destruct (decide (kv.1 = k)) as [Hk|Hne].
    + exfalso. apply (Hyoung kv.2).
      * rewrite <- Hk. destruct kv. apply elem_of_cons. left. reflexivity.
      * apply Z.gtb_lt in E. lia.
    + apply lookup_delete_ne. exact Hne.
  - intros e He. apply Hyoung. apply elem_of_cons. right. exact He.
Qed.

Lemma sweep_run (w : World) :
  sweep w =
    (Normal tt,
     logged ("Cache cleaned. Current size: " +:+
             Number_toString
               (Z.of_nat (size (foldl (sweep_step (clock w)) (searchCache w)
                                  (map_to_list (searchCache w))))))
       (with_cache (foldl (sweep_step (clock w)) (searchCache w)
                      (map_to_list (searchCache w))) w)).
Proof.
  unfold sweep, mbind, M_bind, Date_now, cache_entries.
  rewrite for_of_sweep. reflexivity.
Qed.

Lemma sweep_lookup (w : World) (k : string) :
  searchCache (sweep w).2 !! k =
    match searchCache w !! k with
    | Some e => if clock w - timestamp e >? CACHE_DURATION * 2 then None else Some e
    | None => None
    end.
Proof.
  rewrite sweep_run. cbn [snd logged with_cache searchCache].
  destruct (searchCache w !! k) as [e|] eqn:Hk.
  - destruct (clock w - timestamp e >? CACHE_DURATION * 2) eqn:E.
    + apply (sweep_fold_removed _ _ _ _ e).
      * apply elem_of_map_to_list. exact Hk.
      * apply Z.gtb_lt in E. lia.
    + rewrite sweep_fold_kept; [exact Hk|].
      intros e' He'. apply elem_of_map_to_list in He'.
      rewrite Hk in He'. injection He' as <-.
      rewrite Z.gtb_ltb in E. apply Z.ltb_ge in E. lia.
  - apply sweep_fold_absent. exact Hk.
Qed.

(** C2.  The sweep keeps an entry exactly when its age does not exceed
    2 x TTL (600 000 ms, ten minutes) and removes every other one; an entry
    aged exactly TTL + 1 s is a miss for the read of the fetch functions and
    is still in the store after the sweep. *)
Theorem sweep_removes_only_old_entries (w : World) :
  (sweep w).1 = Normal tt
  /\ CACHE_DURATION * 2 = 10 * 60 * 1000
  /\ (forall key entry,
        searchCache (sweep w).2 !! key = Some entry <->
        searchCache w !! key = Some entry
        /\ ~ clock w - timestamp entry > CACHE_DURATION * 2)
  /\ (forall key entry,
        searchCache w !! key = Some entry ->
        clock w - timestamp entry > CACHE_DURATION * 2 ->
        searchCache (sweep w).2 !! key = None)
  /\ (forall key entry,
        searchCache w !! key = Some entry ->
        clock w - timestamp entry = CACHE_DURATION + 1000 ->
        cache_get_fresh key w = (Normal None, w)
        /\ searchCache (sweep w).2 !! key = Some entry).
Proof.
  split; [rewrite sweep_run; reflexivity|].
  split; [reflexivity|].
  assert (Hkeep : forall key entry,
            searchCache (sweep w).2 !! key = Some entry <->
            searchCache w !! key = Some entry
            /\ ~ clock w - timestamp entry > CACHE_DURATION * 2).
  { intros key entry. rewrite sweep_lookup.
    destruct (searchCache w !! key) as [e|]; [|split; [discriminate|intros [? _]; discriminate]].
    destruct (clock w - timestamp e >? CACHE_DURATION * 2) eqn:E.
    - apply Z.gtb_lt in E. split; [discriminate|].
      intros [[= ->] Hyoung]. exfalso. apply Hyoung. lia.
    - rewrite Z.gtb_ltb in E. apply Z.ltb_ge in E. split.
      + intros [= ->]. split; [reflexivity|lia].
      + intros [Heq _]. exact Heq. }
  split; [exact Hkeep|]. split.
  - intros key entry Hk Hold. rewrite sweep_lookup, Hk.
    apply Z.gt_lt, Z.gtb_lt in Hold. rewrite Hold. reflexivity.
  - intros key entry Hk Hage. split.
    + apply cache_get_fresh_miss. unfold has_fresh_entry. rewrite Hk.
      apply Z.ltb_ge. unfold CACHE_DURATION in *. lia.
    + apply Hkeep. split; [exact Hk|]. unfold CACHE_DURATION in *. lia.
Qed.

(** ** Outcomes of the fetch functions *)

(** X4.  Neither fetch function ever rejects: every exception raised after
    the cache read is caught by the function's own [catch]. *)
Theorem fetch_never_throws uid region w :
  (exists r, (fetchPlayerStats uid region w).1 = Normal r)
  /\ (exists r, (fetchGuildInfo uid region w).1 = Normal r).
Proof.
  split.
  - destruct (fresh_entry_cases (stats_cacheKey uid region) w)
      as [(entry & Hk & Hage) | Hmiss].
    + rewrite (fetchPlayerStats_hit _ _ _ _ Hk Hage). eauto.
    + rewrite (fetchPlayerStats_miss _ _ _ Hmiss).
      destruct (network w (accountUrl uid region) (clock w)) as [dt [[acc|]|e]];
        cbn [fst]; eauto.
      destruct (truthy (Raw.error acc)); cbn [fst]; eauto.
      destruct (network w (statsUrl uid region) (clock w + dt)) as [dt' [stats|e]];
        cbn [fst]; eauto.
  - destruct (fresh_entry_cases (guild_cacheKey uid region) w)
      as [(entry & Hk & Hage) | Hmiss].
    + rewrite (fetchGuildInfo_hit _ _ _ _ Hk Hage). eauto.
    + rewrite (fetchGuildInfo_miss _ _ _ Hmiss).
      destruct (network w (guildUrl uid region) (clock w)) as [dt [[g|]|e]];
        cbn [fst]; eauto.
      destruct (truthy (Raw.error g)); cbn [fst]; eauto.
Qed.

(** C1, as amended.  With no fresh cache entry, when the body of the account
    response has a truthy [error] field, [fetchPlayerStats] raises an error
    carrying the upstream [message], catches it itself, writes
    ["Primary source failed: <message>"] to the console and returns [null]:
    no rejection reaches the caller, only the account request is sent and
    the store is left as it was. *)
Theorem application_error_returns_null uid region w dt accountData :
  has_fresh_entry (stats_cacheKey uid region) w = false ->
  network w (accountUrl uid region) (clock w) = (dt, Fulfilled (Some accountData)) ->
  truthy (Raw.error accountData) = true ->
  let out := fetchPlayerStats uid region w in
  out.1 = Normal None
  /\ (forall e, out.1 <> Throw e)
  /\ console out.2 =
       console w ++
       ["Primary source failed: " +:+ default EmptyString (Raw.message accountData)]
  /\ requests out.2 = requests w ++ [accountUrl uid region]
  /\ searchCache out.2 = searchCache w.
Proof.
  intros Hmiss Hnet Herr out. subst out.
  rewrite (fetchPlayerStats_miss _ _ _ Hmiss), Hnet, Herr.
  cbn [fst snd]. repeat split. intros e. discriminate.
Qed.


(** C10.  A call of [fetchPlayerStats] or [fetchGuildInfo] that does not
    return a value (it returns [null], or would throw) leaves the store
    unchanged; the store changes only together with a returned value. *)
Theorem failure_keeps_cache uid guildId region w :
  let p := fetchPlayerStats uid region w in
  let g := fetchGuildInfo guildId region w in
  (p.1 = Normal None \/ (exists e, p.1 = Throw e) -> searchCache p.2 = searchCache w)
  /\ (g.1 = Normal None \/ (exists e, g.1 = Throw e) -> searchCache g.2 = searchCache w)
  /\ (searchCache p.2 <> searchCache w -> exists d, p.1 = Normal (Some d))
  /\ (searchCache g.2 <> searchCache w -> exists d, g.1 = Normal (Some d)).
Proof.
  intros p g.
  assert (Hp : (exists d, p.1 = Normal (Some d)) \/ searchCache p.2 = searchCache w).
  { subst p.
    destruct (fresh_entry_cases (stats_cacheKey uid region) w)
      as [(entry & Hk & Hage) | Hmiss].
    - rewrite (fetchPlayerStats_hit _ _ _ _ Hk Hage). right. reflexivity.
    - rewrite (fetchPlayerStats_miss _ _ _ Hmiss).
      destruct (network w (accountUrl uid region) (clock w)) as [dt [[acc|]|e]];
        try (right; reflexivity).
      destruct (truthy (Raw.error acc)); [right; reflexivity|].
      destruct (network w (statsUrl uid region) (clock w + dt)) as [dt' [stats|e]];
        [left; eexists; reflexivity | right; reflexivity]. }
  assert (Hg : (exists d, g.1 = Normal (Some d)) \/ searchCache g.2 = searchCache w).
  { subst g.
    destruct (fresh_entry_cases (guild_cacheKey guildId region) w)
      as [(entry & Hk & Hage) | Hmiss].
    - rewrite (fetchGuildInfo_hit _ _ _ _ Hk Hage). right. reflexivity.
    - rewrite (fetchGuildInfo_miss _ _ _ Hmiss).
      destruct (network w (guildUrl guildId region) (clock w)) as [dt [[gd|]|e]];
        try (right; reflexivity).
      destruct (truthy (Raw.error gd));
        [right; reflexivity | left; eexists; reflexivity]. }
  repeat split.
  - intros Hfail. destruct Hp as [[d Hd] | Hsame]; [|exact Hsame].
    rewrite Hd in Hfail. destruct Hfail as [Hn | [e He]]; discriminate.
  - intros Hfail. destruct Hg as [[d Hd] | Hsame]; [|exact Hsame].
    rewrite Hd in Hfail. destruct Hfail as [Hn | [e He]]; discriminate.
  - intros Hchanged. destruct Hp as [Hd | Hsame]; [exact Hd|contradiction].
  - intros Hchanged. destruct Hg as [Hd | Hsame]; [exact Hd|contradiction].
Qed.

(** C3, as amended.  After a successful call of [fetchPlayerStats] the store
    holds the returned value under the pair's key; a second call made while
    that entry is in the store and less than TTL has passed since the entry
    was stored returns the same value and sends no upstream request.  When
    the first call went upstream the entry was stored as that call
    completed. *)
Theorem second_call_served_from_cache uid region w d w1 :
  fetchPlayerStats uid region w = (Normal (Some d), w1) ->
  exists entry,
    searchCache w1 !! stats_cacheKey uid region = Some entry
    /\ data entry = d
    /\ (has_fresh_entry (stats_cacheKey uid region) w = false ->
        timestamp entry = clock w1)
    /\ forall w2,
         searchCache w2 !! stats_cacheKey uid region = Some entry ->
         clock w2 - timestamp entry < CACHE_DURATION ->
         exists w2',
           fetchPlayerStats uid region w2 = (Normal (Some d), w2')
           /\ requests w2' = requests w2
           /\ searchCache w2' = searchCache w2.
Proof.
  intros Hfirst.
  assert (Hsecond : forall entry w2,
            data entry = d ->
            searchCache w2 !! stats_cacheKey uid region = Some entry ->
            clock w2 - timestamp entry < CACHE_DURATION ->
            exists w2',
              fetchPlayerStats uid region w2 = (Normal (Some d), w2')
              /\ requests w2' = requests w2
              /\ searchCache w2' = searchCache w2).
  { intros entry w2 Hd Hk Hage.
    rewrite (fetchPlayerStats_hit _ _ _ _ Hk Hage), Hd.
    eexists. split; [reflexivity|]. split; reflexivity. }
  destruct (fresh_entry_cases (stats_cacheKey uid region) w)
    as [(entry & Hk & Hage) | Hmiss].
  - rewrite (fetchPlayerStats_hit _ _ _ _ Hk Hage) in Hfirst.
    injection Hfirst as Hd Hw. subst w1.
    exists entry. split; [exact Hk|]. split; [exact Hd|]. split.
    + intros Hmiss. unfold has_fresh_entry in Hmiss. rewrite Hk in Hmiss.
      apply Z.ltb_ge in Hmiss. lia.
    + intros w2. apply Hsecond. exact Hd.
  - rewrite (fetchPlayerStats_miss _ _ _ Hmiss) in Hfirst.
    destruct (network w (accountUrl uid region) (clock w)) as [dt [[acc|]|e]];
      try discriminate Hfirst.
    destruct (truthy (Raw.error acc)); [discriminate Hfirst|].
    destruct (network w (statsUrl uid region) (clock w + dt)) as [dt' [stats|e]];
      [|discriminate Hfirst].
    injection Hfirst as Hd Hw. subst w1.
    eexists. split; [apply lookup_insert_eq|].
    split; [exact Hd|]. split; [reflexivity|].
    intros w2. apply Hsecond. exact Hd.
Qed.

(** C9.  [searchPlayerByNickname] resolves to a list of exactly one
    candidate, whose nickname is the input and whose uid, level and region
    are ['1633864660'], [75] and ['IND']; it never resolves to an empty list
    and never rejects, and it touches neither the store nor the network. *)
Theorem search_returns_one_candidate (nickname : string) (w : World) :
  exists c,
    searchPlayerByNickname nickname w = (Normal [c], w)
    /\ Candidate.nickname c = nickname
    /\ Candidate.uid c = "1633864660"
    /\ Candidate.level c = 75
    /\ Candidate.region c = "IND".
Proof. eexists. repeat split. Qed.

(** X1.  After TTL has elapsed since an entry was stored, the next call of
    [fetchPlayerStats] for its pair goes upstream again, starting with the
    account request. *)
Theorem stale_entry_refetched uid region w entry :
  searchCache w !! stats_cacheKey uid region = Some entry ->
  CACHE_DURATION <= clock w - timestamp entry ->
  exists rest,
    requests (fetchPlayerStats uid region w).2
      = requests w ++ accountUrl uid region :: rest.
Proof.
  intros Hk Hage.
  assert (Hmiss : has_fresh_entry (stats_cacheKey uid region) w = false).
  { unfold has_fresh_entry. rewrite Hk. apply Z.ltb_ge. exact Hage. }
  rewrite (fetchPlayerStats_miss _ _ _ Hmiss).
  destruct (network w (accountUrl uid region) (clock w)) as [dt [[acc|]|e]];
    try (exists []; reflexivity).
  destruct (truthy (Raw.error acc)); [exists []; reflexivity|].
  destruct (network w (statsUrl uid region) (clock w + dt)) as [dt' [stats|e]];
    exists [statsUrl uid region]; cbn [snd requests requested logged with_cache];
    rewrite <- app_assoc; reflexivity.
Qed.

(** X2.  With no fresh cache entry, a guild response whose body has a truthy
    [error] field makes [fetchGuildInfo] return [null] without writing to
    the store or to the console. *)
Theorem guild_error_returns_null guildId region w dt guildData :
  has_fresh_entry (guild_cacheKey guildId region) w = false ->
  network w (guildUrl guildId region) (clock w) = (dt, Fulfilled (Some guildData)) ->
  truthy (Raw.error guildData) = true ->
  fetchGuildInfo guildId region w
    = (Normal None, requested (guildUrl guildId region) dt w).
Proof.
  intros Hmiss Hnet Herr.
  rewrite (fetchGuildInfo_miss _ _ _ Hmiss), Hnet, Herr. reflexivity.
Qed.

(** X3.  With no fresh cache entry, a guild response without a truthy
    [error] field is stored unnormalised under the guild key, stamped with
    the time of the write, and returned as it is. *)
Theorem guild_success_cached_raw guildId region w dt guildData :
  has_fresh_entry (guild_cacheKey guildId region) w = false ->
  network w (guildUrl guildId region) (clock w) = (dt, Fulfilled (Some guildData)) ->
  truthy (Raw.error guildData) = false ->
  let out := fetchGuildInfo guildId region w in
  out.1 = Normal (Some (RawData guildData))
  /\ searchCache out.2 !! guild_cacheKey guildId region
       = Some {| data := RawData guildData; timestamp := clock w + dt |}
  /\ requests out.2 = requests w ++ [guildUrl guildId region].
Proof.
  intros Hmiss Hnet Herr out. subst out.
  rewrite (fetchGuildInfo_miss _ _ _ Hmiss), Hnet, Herr.
  cbn [fst snd searchCache with_cache requested requests clock].
  split; [reflexivity|]. split; [apply lookup_insert_eq|reflexivity].
Qed.

(** X5.  With no fresh cache entry, an account response that is delivered
    with a body holding neither [basicInfo] nor a truthy [error] (an empty
    object, an object with other properties only, the text of a body that
    did not parse as JSON) is not a failure: once the stats request is
    answered too, [fetchPlayerStats] returns a record of defaults for the
    requested uid and region and stores it. *)
Theorem empty_body_yields_default_record askedUid askedRegion w dt dt'
    accountData statsData :
  has_fresh_entry (stats_cacheKey askedUid askedRegion) w = false ->
  network w (accountUrl askedUid askedRegion) (clock w)
    = (dt, Fulfilled (Some accountData)) ->
  truthy (Raw.error accountData) = false ->
  Raw.basicInfo accountData = None ->
  network w (statsUrl askedUid askedRegion) (clock w + dt)
    = (dt', Fulfilled statsData) ->
  let out := fetchPlayerStats askedUid askedRegion w in
  exists r,
    out.1 = Normal (Some (PlayerData r))
    /\ nickname r = "Unknown" /\ uid r = askedUid /\ level r = 0
    /\ region r = askedRegion /\ likes r = 0 /\ rankingPoints r = 0
    /\ badgeCount r = 0 /\ rank r = Text "Rank Unknown"
    /\ maxRank r = Text "Unknown" /\ lastLogin r = "Unknown"
    /\ clanInfo r = Raw.clanBasicInfo accountData
    /\ searchCache out.2 !! stats_cacheKey askedUid askedRegion
         = Some {| data := PlayerData r; timestamp := clock w + dt + dt' |}.
Proof.
  intros Hmiss Hnet Herr Hbasic Hnet' out. subst out.
  rewrite (fetchPlayerStats_miss _ _ _ Hmiss), Hnet, Herr, Hnet'. eexists.
  split; [reflexivity|].
  cbn [fst snd searchCache with_cache requested requests clock nickname uid
       level region likes rankingPoints badgeCount rank maxRank lastLogin
       clanInfo combinePlayerData].
  rewrite Hbasic.
  repeat (split; [reflexivity|]).
  apply lookup_insert_eq.
Qed.

(** ** [formatNumber] *)

Lemma or_str_nonempty (s d : string) :
  (1 <= String.length s)%nat -> or_str (Some s) d = s.
Proof. destruct s; simpl; [lia | reflexivity]. Qed.

Lemma Number_toString_nonempty (z : Z) :
  Z.abs z <= MAX_SAFE_INTEGER -> (1 <= String.length (Number_toString z))%nat.
Proof.
  intros Hz. rewrite Number_toString_digits by exact Hz.
  rewrite length_app. pose proof (digits_nonempty (Z.abs z)). lia.
Qed.

(** X6.  For a safe integer, [formatNumber] prints every number below 1000,
    zero and the negative ones included, in full; a number from 1000 up to
    999 999 as a figure with exactly one decimal digit followed by [K]; and
    a number from a million on as such a figure followed by [M]. *)
Theorem formatNumber_shape (num : Z) :
  Z.abs num <= MAX_SAFE_INTEGER ->
  (num < 1000 ->
   formatNumber num = Number_toString num
   /\ is_integer_string (formatNumber num) = true)
  /\ (1000 <= num < 1000000 ->
      exists figure, formatNumber num = figure +:+ "K"
                     /\ has_decimals 1 figure = true)
  /\ (1000000 <= num ->
      exists figure, formatNumber num = figure +:+ "M"
                     /\ has_decimals 1 figure = true).
Proof.
  intros Hsafe.
  assert (Hpow : 2 * MAX_SAFE_INTEGER + 1 < 10 ^ 21) by reflexivity.
  unfold formatNumber. repeat split.
  - destruct (1000000 <=? num) eqn:E1; [apply Z.leb_le in E1; lia|].
    destruct (1000 <=? num) eqn:E2; [apply Z.leb_le in E2; lia|].
    apply or_str_nonempty, Number_toString_nonempty. exact Hsafe.
  - destruct (1000000 <=? num) eqn:E1; [apply Z.leb_le in E1; lia|].
    destruct (1000 <=? num) eqn:E2; [apply Z.leb_le in E2; lia|].
    rewrite or_str_nonempty by (apply Number_toString_nonempty; exact Hsafe).
    apply Number_toString_integer. exact Hsafe.
  - intros [Hlo Hhi].
    destruct (1000000 <=? num) eqn:E1; [apply Z.leb_le in E1; lia|].
    destruct (1000 <=? num) eqn:E2; [|apply Z.leb_gt in E2; lia].
    eexists. split; [reflexivity|].
    pose proof (Number_div_bound num 1000 _ ltac:(lia) Hsafe) as Hdiv.
    destruct (within_toFixed_range _ _ Hdiv Hpow) as [Hl Hh].
    apply toFixed_has_decimals; [lia | exact Hl | exact Hh].
  - intros Hlo.
    destruct (1000000 <=? num) eqn:E1; [|apply Z.leb_gt in E1; lia].
    eexists. split; [reflexivity|].
    pose proof (Number_div_bound num 1000000 _ ltac:(lia) Hsafe) as Hdiv.
    destruct (within_toFixed_range _ _ Hdiv Hpow) as [Hl Hh].
    apply toFixed_has_decimals; [lia | exact Hl | exact Hh].
Qed.

Lemma Qfloor_unique (x : Q) (z : Z) :
  (inject_Z z <= x)%Q -> (x < inject_Z (z + 1))%Q -> Qfloor x = z.
Proof.
  intros Hlo Hhi.
  pose proof (Qfloor_le x) as Hfl. pose proof (Qlt_floor x) as Hlt.
  assert (H1 : (inject_Z (Qfloor x) < inject_Z (z + 1))%Q)
    by (eapply Qle_lt_trans; eassumption).
  assert (H2 : (inject_Z z < inject_Z (Qfloor x + 1))%Q)
    by (eapply Qle_lt_trans; eassumption).
  rewrite <- Zlt_Qlt in H1, H2. lia.
Qed.

(** X7.  Just below a million the rounding of [toFixed] carries into the
    thousands: every number above 999 950 and below 1 000 000 is printed as
    ["1000.0K"], not as ["1.0M"]. *)
Theorem formatNumber_rollover (num : Z) :
  999950 < num < 1000000 -> formatNumber num = "1000.0K".
Proof.
  intros [Hlo Hhi]. unfold formatNumber.
  destruct (1000000 <=? num) eqn:E1; [apply Z.leb_le in E1; lia|].
  destruct (1000 <=? num) eqn:E2; [|apply Z.leb_gt in E2; lia].
  set (q := (inject_Z num / inject_Z 1000)%Q).
  assert (Hq : (999951 # 1000 <= q)%Q /\ (q <= 999999 # 1000)%Q).
  { unfold q. split.
    - apply Qle_shift_div_l; [reflexivity|].
      unfold Qle, Qmult, inject_Z. cbn [Qnum Qden]. lia.
    - apply Qle_shift_div_r; [reflexivity|].
      unfold Qle, Qmult, inject_Z. cbn [Qnum Qden]. lia. }
  destruct Hq as [Hq1 Hq2].
  pose proof (Number_round_error q) as Herr.
  assert (H53 : (pow2 (-53) <= 1 # 1000000000000)%Q)
    by (apply Qle_bool_iff; vm_compute; reflexivity).
  assert (H1075 : (pow2 (-1075) <= 1 # 1000000000000)%Q)
    by (apply Qle_bool_iff; vm_compute; reflexivity).
  pose proof (pow2_pos (-53)) as Hp.
  assert (Eq : (Qabs q == q)%Q) by (apply Qabs_pos; lra).
  rewrite Eq in Herr.
  assert (Hsmall : (Qabs (Number_round q - q) <= 1 # 1000000)%Q) by nra.
  apply Qabs_Qle_condition in Hsmall. destruct Hsmall as [Hs1 Hs2].
  change (Number_div num 1000) with (Number_round q).
  set (x := Number_round q) in *.
  assert (Hfloor : Qfloor (x * inject_Z (10 ^ Z.of_nat 1) + (1 # 2)) = 10000).
  { change (10 ^ Z.of_nat 1) with 10. change (inject_Z 10) with 10%Q.
    apply Qfloor_unique.
    - change (inject_Z 10000) with 10000%Q. lra.
    - change (inject_Z (10000 + 1)) with 10001%Q. lra. }
  assert (Hpos : Qle_bool 0 x = true) by (apply Qle_bool_iff; lra).
  assert (Hbig : Qle_bool (inject_Z (10 ^ 21)) x = false).
  { destruct (Qle_bool (inject_Z (10 ^ 21)) x) eqn:E; [|reflexivity].
    apply Qle_bool_iff in E. exfalso.
    change (inject_Z (10 ^ 21)) with 1000000000000000000000%Q in E. lra. }
  unfold toFixed, toFixed_magnitude.
  rewrite Hpos, Hbig, Hfloor. reflexivity.
Qed.

(** ** Cache keys *)

Lemma dash_not_digit : is_digit "-" = false.
Proof. reflexivity. Qed.

Lemma append_nil_l (s : string) : EmptyString +:+ s = s.
Proof. reflexivity. Qed.

Lemma append_cons_l (c : ascii) (a s : string) :
  String c a +:+ s = String c (a +:+ s).
Proof. reflexivity. Qed.

Lemma digits_dash_split (a a' b b' : string) :
  all_digits a = true -> all_digits a' = true ->
  a +:+ "-" +:+ b = a' +:+ "-" +:+ b' -> a = a' /\ b = b'.
Proof.
  revert a'. induction a as [|c a IH]; intros [|c' a'] Ha Ha' E;
    rewrite ?append_cons_l, ?append_nil_l in E; simpl in Ha, Ha'.
  - injection E as ->. auto.
  - injection E as <- _. apply andb_prop in Ha' as [Hc _]. discriminate Hc.
  - injection E as -> _. apply andb_prop in Ha as [Hc _]. discriminate Hc.
  - injection E as -> E.
    apply andb_prop in Ha as [_ Ha]. apply andb_prop in Ha' as [_ Ha'].
    destruct (IH a' Ha Ha' E) as [-> ->]. auto.
Qed.

Lemma stats_cacheKey_inj (id1 id2 region1 region2 : string) :
  all_digits id1 = true -> all_digits id2 = true ->
  stats_cacheKey id1 region1 = stats_cacheKey id2 region2 ->
  id1 = id2 /\ region1 = region2.
Proof.
  intros H1 H2 E. unfold stats_cacheKey in E.
  rewrite !append_cons_l, !append_nil_l in E. injection E as E.
  exact (digits_dash_split _ _ _ _ H1 H2 E).
Qed.

Lemma guild_cacheKey_inj (id1 id2 region1 region2 : string) :
  all_digits id1 = true -> all_digits id2 = true ->
  guild_cacheKey id1 region1 = guild_cacheKey id2 region2 ->
  id1 = id2 /\ region1 = region2.
Proof.
  intros H1 H2 E. unfold guild_cacheKey in E.
  rewrite !append_cons_l, !append_nil_l in E. injection E as E.
  exact (digits_dash_split _ _ _ _ H1 H2 E).
Qed.

Lemma stats_guild_key_ne (id1 id2 region1 region2 : string) :
  stats_cacheKey id1 region1 <> guild_cacheKey id2 region2.
Proof.
  unfold stats_cacheKey, guild_cacheKey. rewrite !append_cons_l. discriminate.
Qed.

(** X8.  For identifiers made of digits, as the command patterns deliver
    them, the cache key determines the pair: two player keys, or two guild
    keys, are equal only for the same identifier and region, and a player
    key never equals a guild key.  Without the restriction two pairs can
    share a key. *)
Theorem cache_key_determines_pair (id1 id2 region1 region2 : string) :
  all_digits id1 = true -> all_digits id2 = true ->
  (stats_cacheKey id1 region1 = stats_cacheKey id2 region2 ->
   id1 = id2 /\ region1 = region2)
  /\ (guild_cacheKey id1 region1 = guild_cacheKey id2 region2 ->
      id1 = id2 /\ region1 = region2)
  /\ stats_cacheKey id1 region1 <> guild_cacheKey id2 region2
  /\ stats_cacheKey "1-2" "3" = stats_cacheKey "1" "2-3".
Proof.
  intros H1 H2.
  split; [|split; [|split]].
  - apply stats_cacheKey_inj; assumption.
  - apply guild_cacheKey_inj; assumption.
  - apply stats_guild_key_ne.
  - reflexivity.
Qed.

(** ** What the fetch functions leave alone *)

Lemma fetchPlayerStats_cache_effect uid region w :
  searchCache (fetchPlayerStats uid region w).2 = searchCache w
  \/ exists e, searchCache (fetchPlayerStats uid region w).2
               = <[stats_cacheKey uid region := e]> (searchCache w).
Proof.
  destruct (fresh_entry_cases (stats_cacheKey uid region) w)
    as [(entry & Hk & Hage) | Hmiss].
  - rewrite (fetchPlayerStats_hit _ _ _ _ Hk Hage). left. reflexivity.
  - rewrite (fetchPlayerStats_miss _ _ _ Hmiss).
    destruct (network w (accountUrl uid region) (clock w)) as [dt [[acc|]|e]];
      try (left; reflexivity).
    destruct (truthy (Raw.error acc)); [left; reflexivity|].
    destruct (network w (statsUrl uid region) (clock w + dt)) as [dt' [stats|e]];
      [right; eexists; reflexivity | left; reflexivity].
Qed.

Lemma fetchGuildInfo_cache_effect guildId region w :
  searchCache (fetchGuildInfo guildId region w).2 = searchCache w
  \/ exists e, searchCache (fetchGuildInfo guildId region w).2
               = <[guild_cacheKey guildId region := e]> (searchCache w).
Proof.
  destruct (fresh_entry_cases (guild_cacheKey guildId region) w)
    as [(entry & Hk & Hage) | Hmiss].
  - rewrite (fetchGuildInfo_hit _ _ _ _ Hk Hage). left. reflexivity.
  - rewrite (fetchGuildInfo_miss _ _ _ Hmiss).
    destruct (network w (guildUrl guildId region) (clock w)) as [dt [[gd|]|e]];
      try (left; reflexivity).
    destruct (truthy (Raw.error gd));
      [left; reflexivity | right; eexists; reflexivity].
Qed.

(** X9.  A fetch call writes at most the entry of its own key: every other
    key of the store reads as before, and no key that was present is
    removed, whatever upstream answers. *)
Theorem fetch_writes_only_its_key uid guildId region w :
  let p := fetchPlayerStats uid region w in
  let g := fetchGuildInfo guildId region w in
  (forall key, key <> stats_cacheKey uid region ->
               searchCache p.2 !! key = searchCache w !! key)
  /\ (forall key, key <> guild_cacheKey guildId region ->
                  searchCache g.2 !! key = searchCache w !! key)
  /\ (forall key, is_Some (searchCache w !! key) ->
                  is_Some (searchCache p.2 !! key)
                  /\ is_Some (searchCache g.2 !! key)).
Proof.
  intros p g.
  pose proof (fetchPlayerStats_cache_effect uid region w) as Hp.
  pose proof (fetchGuildInfo_cache_effect guildId region w) as Hg.
  fold p in Hp. fold g in Hg.
  split; [|split].
  - intros key Hne. destruct Hp as [-> | [e ->]]; [reflexivity|].
    apply lookup_insert_ne. congruence.
  - intros key Hne. destruct Hg as [-> | [e ->]]; [reflexivity|].
    apply lookup_insert_ne. congruence.
  - intros key Hin. split.
    + destruct Hp as [-> | [e ->]]; [exact Hin|].
      rewrite lookup_insert. case_decide; [eexists; reflexivity | exact Hin].
    + destruct Hg as [-> | [e ->]]; [exact Hin|].
      rewrite lookup_insert. case_decide; [eexists; reflexivity | exact Hin].
Qed.

(** X10.  After a successful call of [fetchGuildInfo] the store holds the
    returned body under the guild key; a second call made while that entry
    is in the store and less than TTL has passed since it was stored
    returns the same body and changes nothing: no request, no write, no
    console line. *)
Theorem guild_second_call_served_from_cache guildId region w d w1 :
  fetchGuildInfo guildId region w = (Normal (Some d), w1) ->
  exists entry,
    searchCache w1 !! guild_cacheKey guildId region = Some entry
    /\ data entry = d
    /\ (has_fresh_entry (guild_cacheKey guildId region) w = false ->
        timestamp entry = clock w1)
    /\ forall w2,
         searchCache w2 !! guild_cacheKey guildId region = Some entry ->
         clock w2 - timestamp entry < CACHE_DURATION ->
         fetchGuildInfo guildId region w2 = (Normal (Some d), w2).
Proof.
  intros Hfirst.
  destruct (fresh_entry_cases (guild_cacheKey guildId region) w)
    as [(entry & Hk & Hage) | Hmiss].
  - rewrite (fetchGuildInfo_hit _ _ _ _ Hk Hage) in Hfirst.
    injection Hfirst as Hd Hw. subst w1.
    exists entry. split; [exact Hk|]. split; [exact Hd|]. split.
    + intros Hmiss. unfold has_fresh_entry in Hmiss. rewrite Hk in Hmiss.
      apply Z.ltb_ge in Hmiss. lia.
    + intros w2 Hk2 Hage2.
      rewrite (fetchGuildInfo_hit _ _ _ _ Hk2 Hage2), Hd. reflexivity.
  - rewrite (fetchGuildInfo_miss _ _ _ Hmiss) in Hfirst.
    destruct (network w (guildUrl guildId region) (clock w)) as [dt [[gd|]|e]];
      try discriminate Hfirst.
    destruct (truthy (Raw.error gd)); [discriminate Hfirst|].
    injection Hfirst as Hd Hw. subst w1.
    eexists. split; [apply lookup_insert_eq|].
    split; [exact Hd|]. split; [reflexivity|].
    intros w2 Hk2 Hage2.
    rewrite (fetchGuildInfo_hit _ _ _ _ Hk2 Hage2). cbn [data]. rewrite Hd.
    reflexivity.
Qed.

(** ** The kinds of cached data *)

Lemma stats_key_prefix uid region :
  starts_with "stats-" (stats_cacheKey uid region) = true
  /\ starts_with "guild-" (stats_cacheKey uid region) = false.
Proof. split; reflexivity. Qed.

Lemma guild_key_prefix guildId region :
  starts_with "guild-" (guild_cacheKey guildId region) = true
  /\ starts_with "stats-" (guild_cacheKey guildId region) = false.
Proof. split; reflexivity. Qed.

Lemma cache_typed_empty : cache_typed ∅.
Proof. intros key entry Hk. rewrite lookup_empty in Hk. discriminate Hk. Qed.

Lemma cache_typed_insert c key entry :
  cache_typed c -> entry_fits_key key entry = true ->
  cache_typed (<[key := entry]> c).
Proof.
  intros Hc He k e. rewrite lookup_insert. case_decide.
  - intros [= <-]. subst k. exact He.
  - apply Hc.
Qed.

(** X11.  Player records and guild bodies share one store without being
    confused.  When every entry sits under a key of its kind (as in the
    empty store), the fetch functions and the sweep keep it so, and then
    [fetchPlayerStats] returns [null] or a normalised record, never a raw
    guild body, and [fetchGuildInfo] returns [null] or a raw body. *)
Theorem cache_kinds_preserved uid guildId region w :
  cache_typed (searchCache w) ->
  let p := fetchPlayerStats uid region w in
  let g := fetchGuildInfo guildId region w in
  cache_typed (searchCache p.2)
  /\ cache_typed (searchCache g.2)
  /\ cache_typed (searchCache (sweep w).2)
  /\ (p.1 = Normal None \/ exists r, p.1 = Normal (Some (PlayerData r)))
  /\ (g.1 = Normal None \/ exists b, g.1 = Normal (Some (RawData b))).
Proof.
  intros Hc p g.
  assert (Hp : cache_typed (searchCache p.2)
               /\ (p.1 = Normal None \/ exists r, p.1 = Normal (Some (PlayerData r)))).
  { subst p.
    destruct (fresh_entry_cases (stats_cacheKey uid region) w)
      as [(entry & Hk & Hage) | Hmiss].
    - rewrite (fetchPlayerStats_hit _ _ _ _ Hk Hage). split; [exact Hc|].
      right. pose proof (Hc _ _ Hk) as Hfit. unfold entry_fits_key in Hfit.
      destruct (data entry) as [r|b]; [eexists; reflexivity|].
      rewrite (proj2 (stats_key_prefix uid region)) in Hfit. discriminate Hfit.
    - rewrite (fetchPlayerStats_miss _ _ _ Hmiss).
      destruct (network w (accountUrl uid region) (clock w)) as [dt [[acc|]|e]];
        try (split; [exact Hc | left; reflexivity]).
      destruct (truthy (Raw.error acc)); [split; [exact Hc | left; reflexivity]|].
      destruct (network w (statsUrl uid region) (clock w + dt)) as [dt' [stats|e]];
        [|split; [exact Hc | left; reflexivity]].
      split; [|right; eexists; reflexivity].
      apply cache_typed_insert; [exact Hc|].
      apply (proj1 (stats_key_prefix uid region)). }
  assert (Hg : cache_typed (searchCache g.2)
               /\ (g.1 = Normal None \/ exists b, g.1 = Normal (Some (RawData b)))).
  { subst g.
    destruct (fresh_entry_cases (guild_cacheKey guildId region) w)
      as [(entry & Hk & Hage) | Hmiss].
    - rewrite (fetchGuildInfo_hit _ _ _ _ Hk Hage). split; [exact Hc|].
      right. pose proof (Hc _ _ Hk) as Hfit. unfold entry_fits_key in Hfit.
      destruct (data entry) as [r|b]; [|eexists; reflexivity].
      rewrite (proj2 (guild_key_prefix guildId region)) in Hfit. discriminate Hfit.
    - rewrite (fetchGuildInfo_miss _ _ _ Hmiss).
      destruct (network w (guildUrl guildId region) (clock w)) as [dt [[gd|]|e]];
        try (split; [exact Hc | left; reflexivity]).
      destruct (truthy (Raw.error gd)); [split; [exact Hc | left; reflexivity]|].
      split; [|right; eexists; reflexivity].
      apply cache_typed_insert; [exact Hc|].
      apply (proj1 (guild_key_prefix guildId region)). }
  destruct Hp as [Hp1 Hp2]. destruct Hg as [Hg1 Hg2].
  repeat split; try assumption.
  intros key entry Hk. rewrite sweep_lookup in Hk.
  destruct (searchCache w !! key) as [e|] eqn:Hw; [|discriminate Hk].
  destruct (clock w - timestamp e >? CACHE_DURATION * 2); [discriminate Hk|].
  injection Hk as <-. exact (Hc _ _ Hw).
Qed.

(** ** The sweep and the readers *)

Lemma sweep_frame (w : World) :
  clock (sweep w).2 = clock w /\ network (sweep w).2 = network w
  /\ requests (sweep w).2 = requests w.
Proof. rewrite sweep_run. repeat split. Qed.

Lemma sweep_keeps_fresh (key : string) (w : World) :
  has_fresh_entry key (sweep w).2 = has_fresh_entry key w.
Proof.
  unfold has_fresh_entry. rewrite sweep_lookup.
  destruct (sweep_frame w) as (-> & _ & _).
  destruct (searchCache w !! key) as [e|]; [|reflexivity].
  destruct (clock w - timestamp e >? CACHE_DURATION * 2) eqn:E; [|reflexivity].
  apply Z.gtb_lt in E. symmetry. apply Z.ltb_ge.
  unfold CACHE_DURATION in *. lia.
Qed.

(** X12.  The sweep is invisible to the readers: it removes only entries
    that are already stale, so a fetch call made right after a sweep
    returns what it would have returned without it. *)
Theorem sweep_invisible_to_fetch uid guildId region w :
  (fetchPlayerStats uid region (sweep w).2).1 = (fetchPlayerStats uid region w).1
  /\ (fetchGuildInfo guildId region (sweep w).2).1
     = (fetchGuildInfo guildId region w).1.
Proof.
  destruct (sweep_frame w) as (Hclock & Hnet & _).
  split.
  - destruct (fresh_entry_cases (stats_cacheKey uid region) w)
      as [(entry & Hk & Hage) | Hmiss].
    + assert (Hk' : searchCache (sweep w).2 !! stats_cacheKey uid region = Some entry).
      { rewrite sweep_lookup, Hk.
        destruct (clock w - timestamp entry >? CACHE_DURATION * 2) eqn:E;
          [|reflexivity].
        apply Z.gtb_lt in E. unfold CACHE_DURATION in *. lia. }
      rewrite (fetchPlayerStats_hit _ _ _ _ Hk Hage).
      rewrite (fetchPlayerStats_hit _ _ _ _ Hk'); [reflexivity|].
      rewrite Hclock. exact Hage.
    + pose proof (sweep_keeps_fresh (stats_cacheKey uid region) w) as Hmiss'.
      rewrite Hmiss in Hmiss'.
      rewrite (fetchPlayerStats_miss _ _ _ Hmiss), (fetchPlayerStats_miss _ _ _ Hmiss').
      rewrite Hnet, Hclock.
      destruct (network w (accountUrl uid region) (clock w)) as [dt [[acc|]|e]];
        try reflexivity.
      destruct (truthy (Raw.error acc)); [reflexivity|].
      destruct (network w (statsUrl uid region) (clock w + dt)) as [dt' [stats|e]];
        reflexivity.
  - destruct (fresh_entry_cases (guild_cacheKey guildId region) w)
      as [(entry & Hk & Hage) | Hmiss].
    + assert (Hk' : searchCache (sweep w).2 !! guild_cacheKey guildId region = Some entry).
      { rewrite sweep_lookup, Hk.
        destruct (clock w - timestamp entry >? CACHE_DURATION * 2) eqn:E;
          [|reflexivity].
        apply Z.gtb_lt in E. unfold CACHE_DURATION in *. lia. }
      rewrite (fetchGuildInfo_hit _ _ _ _ Hk Hage).
      rewrite (fetchGuildInfo_hit _ _ _ _ Hk'); [reflexivity|].
      rewrite Hclock. exact Hage.
    + pose proof (sweep_keeps_fresh (guild_cacheKey guildId region) w) as Hmiss'.
      rewrite Hmiss in Hmiss'.
      rewrite (fetchGuildInfo_miss _ _ _ Hmiss), (fetchGuildInfo_miss _ _ _ Hmiss').
      rewrite Hnet, Hclock.
      destruct (network w (guildUrl guildId region) (clock w)) as [dt [[gd|]|e]];
        try reflexivity.
      destruct (truthy (Raw.error gd)); reflexivity.
Qed.

(** X13.  The sweep only removes: what it leaves is part of what was there,
    no entry is altered and no request is sent; it writes the size of the
    store after the removals to the console; and sweeping again at the
    same time removes nothing more. *)
Theorem sweep_only_removes (w : World) :
  searchCache (sweep w).2 ⊆ searchCache w
  /\ requests (sweep w).2 = requests w
  /\ console (sweep w).2 =
       console w ++
       ["Cache cleaned. Current size: " +:+
        Number_toString (Z.of_nat (size (searchCache (sweep w).2)))]
  /\ (size (searchCache (sweep w).2) <= size (searchCache w))%nat
  /\ searchCache (sweep (sweep w).2).2 = searchCache (sweep w).2.
Proof.
  assert (Hsub : searchCache (sweep w).2 ⊆ searchCache w).
  { apply map_subseteq_spec. intros key entry Hk. rewrite sweep_lookup in Hk.
    destruct (searchCache w !! key) as [e|]; [|discriminate Hk].
    destruct (clock w - timestamp e >? CACHE_DURATION * 2);
      [discriminate Hk | exact Hk]. }
  split; [exact Hsub|]. split; [apply sweep_frame|].
  split; [rewrite sweep_run at 1; rewrite sweep_run; reflexivity|].
  split; [apply map_subseteq_size, Hsub|].
  apply map_eq. intros key. rewrite (sweep_lookup (sweep w).2).
  destruct (sweep_frame w) as (-> & _ & _).
  rewrite sweep_lookup.
  destruct (searchCache w !! key) as [e|]; [|reflexivity].
  destruct (clock w - timestamp e >? CACHE_DURATION * 2) eqn:E; [reflexivity|].
  rewrite E. reflexivity.
Qed.

(** ** Calls for different pairs *)

(** X14.  Calls for other pairs do not disturb a cached player record.
    After a successful [fetchPlayerStats] for one pair, a call for a
    different pair (identifiers made of digits) and a call of
    [fetchGuildInfo], each after any delay and whatever upstream answers,
    leave the entry in place: a further call for the first pair made less
    than TTL after the entry was stored returns the same record and sends no
    request. *)
Theorem other_pairs_do_not_disturb uid1 region1 uid2 region2 guildId region3
    w d w1 t1 t2 t3 :
  all_digits uid1 = true -> all_digits uid2 = true ->
  (uid1, region1) <> (uid2, region2) ->
  fetchPlayerStats uid1 region1 w = (Normal (Some d), w1) ->
  let w2 := (fetchPlayerStats uid2 region2 (tick t1 w1)).2 in
  let w3 := (fetchGuildInfo guildId region3 (tick t2 w2)).2 in
  let w4 := tick t3 w3 in
  exists entry,
    searchCache w1 !! stats_cacheKey uid1 region1 = Some entry
    /\ data entry = d
    /\ (clock w4 - timestamp entry < CACHE_DURATION ->
        exists w5,
          fetchPlayerStats uid1 region1 w4 = (Normal (Some d), w5)
          /\ requests w5 = requests w4).
Proof.
  intros H1 H2 Hne Hfirst w2 w3 w4.
  assert (Hentry : exists entry,
             searchCache w1 !! stats_cacheKey uid1 region1 = Some entry
             /\ data entry = d).
  { destruct (fresh_entry_cases (stats_cacheKey uid1 region1) w)
      as [(entry & Hk & Hage) | Hmiss].
    - rewrite (fetchPlayerStats_hit _ _ _ _ Hk Hage) in Hfirst.
      injection Hfirst as Hd Hw. subst w1. exists entry. split; assumption.
    - rewrite (fetchPlayerStats_miss _ _ _ Hmiss) in Hfirst.
      destruct (network w (accountUrl uid1 region1) (clock w)) as [dt [[acc|]|e]];
        try discriminate Hfirst.
      destruct (truthy (Raw.error acc)); [discriminate Hfirst|].
      destruct (network w (statsUrl uid1 region1) (clock w + dt)) as [dt' [stats|e]];
        [|discriminate Hfirst].
      injection Hfirst as Hd Hw. subst w1.
      eexists. split; [apply lookup_insert_eq | exact Hd]. }
  destruct Hentry as (entry & Hk1 & Hd). exists entry.
  split; [exact Hk1|]. split; [exact Hd|]. intros Hage.
  assert (Hk2 : searchCache w2 !! stats_cacheKey uid1 region1 = Some entry).
  { subst w2.
    destruct (fetchPlayerStats_cache_effect uid2 region2 (tick t1 w1)) as [-> | [e ->]].
    - exact Hk1.
    - rewrite lookup_insert_ne; [exact Hk1|].
      intros E. apply Hne.
      destruct (stats_cacheKey_inj _ _ _ _ H2 H1 E) as [-> ->]. reflexivity. }
  assert (Hk3 : searchCache w3 !! stats_cacheKey uid1 region1 = Some entry).
  { subst w3.
    destruct (fetchGuildInfo_cache_effect guildId region3 (tick t2 w2)) as [-> | [e ->]].
    - exact Hk2.
    - rewrite lookup_insert_ne; [exact Hk2|].
      intros E. exact (stats_guild_key_ne _ _ _ _ (eq_sym E)). }
  assert (Hk4 : searchCache w4 !! stats_cacheKey uid1 region1 = Some entry)
    by exact Hk3.
  rewrite (fetchPlayerStats_hit _ _ _ _ Hk4 Hage), Hd.
  eexists. split; reflexivity.
Qed.

(** ** The chat commands *)

Lemma includes_In (l : list string) (x : string) :
  includes l x = true -> In x l.
Proof.
  unfold includes. intros H0. apply existsb_exists in H0 as (y & Hy & E).
  apply String.eqb_eq in E. subst y. exact Hy.
Qed.

Lemma append_assoc (a b c : string) : (a +:+ b) +:+ c = a +:+ (b +:+ c).
Proof.
  induction a as [|x a IH]; [reflexivity|].
  rewrite !append_cons_l, IH. reflexivity.
Qed.

(** X15.  The [/stats] callback turns bad input away before anything else
    happens: without a uid, or with a region outside [validRegions], it
    makes one call to the Bot API, a help text sent to the chat without
    waiting for the outcome, and ends; the cache, the network and the
    console are not touched. *)
Theorem stats_rejects_bad_input chatId match1 match2 s :
  absent_or_empty match1 = true
  \/ includes validRegions (or_str match2 "IND") = false ->
  let out := onStats chatId match1 match2 s in
  exists text,
    out.1 = Normal tt
    /\ world out.2 = world s
    /\ sent out.2 = sent s ++ [SendMessage chatId text Markdown]
    /\ (absent_or_empty match1 = true -> text = statsInvalidFormat)
    /\ (forall uid, match1 = Some uid -> absent_or_empty match1 = false ->
                    text = statsInvalidRegion uid).
Proof.
  intros Hbad out. subst out. unfold onStats.
  destruct match1 as [uid|]; cbn [absent_or_empty] in *.
  - destruct (String.eqb uid EmptyString) eqn:Eu.
    + exists statsInvalidFormat. run_callback.
      repeat split; intros; discriminate.
    + destruct Hbad as [Hbad | Hbad]; [discriminate Hbad|].
      rewrite Hbad. cbn [negb].
      exists (statsInvalidRegion uid). run_callback.
      repeat split; try (intros; discriminate).
      intros uid' [= <-] _. reflexivity.
  - exists statsInvalidFormat. run_callback.
    repeat split; intros; discriminate.
Qed.

(** X16.  Whatever the input and whatever the Bot API answers, the [/stats]
    callback touches the cache and the network only through one call of
    [fetchPlayerStats], made with a non-empty uid and a region of
    [validRegions]; otherwise requests and store are as before. *)
Theorem stats_fetches_only_valid_regions chatId match1 match2 s :
  let out := onStats chatId match1 match2 s in
  (requests (world out.2) = requests (world s)
   /\ searchCache (world out.2) = searchCache (world s))
  \/ (exists uid region,
        match1 = Some uid /\ uid <> EmptyString
        /\ region = or_str match2 "IND" /\ In region validRegions
        /\ requests (world out.2)
             = requests (fetchPlayerStats uid region (world s)).2
        /\ searchCache (world out.2)
             = searchCache (fetchPlayerStats uid region (world s)).2).
Proof.
  intros out. subst out. unfold onStats.
  destruct match1 as [uid|]; [|left; split; reflexivity].
  destruct (String.eqb uid EmptyString) eqn:Eu; [left; split; reflexivity|].
  destruct (includes validRegions (or_str match2 "IND")) eqn:Ei;
    [|left; split; reflexivity].
  cbn [negb]. run_callback.
  destruct (telegram s (List.length (sent s))) as [mid|e];
    [|left; split; reflexivity].
  cbn [world sent telegram called with_world fst snd].
  right. exists uid, (or_str match2 "IND").
  split; [reflexivity|]. split; [intros ->; discriminate Eu|].
  split; [reflexivity|]. split; [apply includes_In, Ei|].
  destruct (fetchPlayerStats uid (or_str match2 "IND") (world s)) as [[[d|]|e] w'];
    run_session s; split; reflexivity.
Qed.

(** X17.  The [/guild] callback does not check the region: for a non-empty
    guild id, once the loading message is delivered, it calls
    [fetchGuildInfo] with whatever region the command carried ([IND] when
    it carried none), so that with no fresh cache entry a request with that
    region goes upstream, be the region in [validRegions] or not. *)
Theorem guild_forwards_any_region chatId guildId match2 s message_id :
  guildId <> EmptyString ->
  telegram s (List.length (sent s)) = Delivered message_id ->
  let region := or_str match2 "IND" in
  let out := onGuild chatId (Some guildId) match2 s in
  requests (world out.2) = requests (fetchGuildInfo guildId region (world s)).2
  /\ searchCache (world out.2)
       = searchCache (fetchGuildInfo guildId region (world s)).2
  /\ (has_fresh_entry (guild_cacheKey guildId region) (world s) = false ->
      exists rest, requests (world out.2)
                   = requests (world s) ++ guildUrl guildId region :: rest).
Proof.
  intros Hid Hsent region out. subst out region. unfold onGuild.
  destruct (String.eqb guildId EmptyString) eqn:Eg;
    [apply String.eqb_eq in Eg; contradiction|].
  run_callback. rewrite Hsent.
  cbn [world sent telegram called with_world fst snd].
  destruct (fetchGuildInfo guildId (or_str match2 "IND") (world s))
    as [c w'] eqn:Hf.
  assert (Hm : has_fresh_entry (guild_cacheKey guildId (or_str match2 "IND"))
                 (world s) = false ->
               exists rest,
                 requests w'
                 = requests (world s)
                   ++ guildUrl guildId (or_str match2 "IND") :: rest).
  { intros Hmiss. rewrite (fetchGuildInfo_miss _ _ _ Hmiss) in Hf.
    destruct (network (world s) (guildUrl guildId (or_str match2 "IND"))
                (clock (world s))) as [dt [[gd|]|e]].
    - destruct (truthy (Raw.error gd)); injection Hf as _ <-;
        exists []; reflexivity.
    - injection Hf as _ <-. exists []. reflexivity.
    - injection Hf as _ <-. exists []. reflexivity. }
  destruct c as [[d|]|e]; run_session s;
    (split; [reflexivity|]; split; [reflexivity|]; exact Hm).
Qed.

(** X18.  For every non-empty nickname, when the Bot API delivers both
    calls, the [/search] callback answers with the same single result: it
    sends the loading text, then edits it into a list of one entry that
    repeats the nickname with uid 1633864660, level 75 and region IND,
    without touching the cache or the network. *)
Theorem search_replies_with_the_stub chatId nickname s id1 id2 :
  nickname <> EmptyString ->
  telegram s (List.length (sent s)) = Delivered id1 ->
  telegram s (S (List.length (sent s))) = Delivered id2 ->
  let out := onSearch chatId (Some nickname) s in
  out.1 = Normal tt
  /\ world out.2 = world s
  /\ sent out.2 =
       sent s ++
       [ SendMessage chatId (searchLoading nickname) None;
         EditMessageText
           ("🔍 **Search Results for " +:+ dquote +:+ nickname +:+ dquote +:+ "**

**1.** " +:+ nickname +:+ "
• UID: `1633864660`
• Level: 75
• Region: IND
• Get stats: /stats 1633864660 IND


💡 Use /stats [UID] [Region] to get detailed statistics")
           chatId id1 Markdown ].
Proof.
  intros Hn H1 H2 out. subst out. unfold onSearch.
  destruct (String.eqb nickname EmptyString) eqn:En;
    [apply String.eqb_eq in En; contradiction|].
  run_callback. rewrite H1.
  cbn [world sent telegram called with_world fst snd].
  change (searchPlayerByNickname nickname (world s))
    with (Normal [ {| Candidate.nickname := nickname;
                      Candidate.uid := "1633864660";
                      Candidate.level := 75;
                      Candidate.region := "IND" |} ], world s).
  cbn [List.length Nat.eqb world sent telegram called with_world fst snd].
  rewrite last_length, H2.
  cbn [world sent telegram called with_world fst snd].
  split; [reflexivity|]. split; [destruct s; reflexivity|].
  rewrite <- app_assoc. cbn [app]. do 3 f_equal.
  unfold searchResultMessage, searchResultEntry.
  cbn [take imap String.concat List.length Nat.ltb Nat.leb Candidate.nickname
       Candidate.uid Candidate.level Candidate.region].
  rewrite !append_assoc. reflexivity.
Qed.

(** X19.  The message of an upstream application error does not reach the
    chat.  For a valid [/stats] command with no fresh cache entry, when the
    account body has a truthy [error] field and the Bot API delivers both
    calls, the callback edits the loading message into the fixed
    not-found text for the uid and region; the upstream message goes to the
    console only. *)
Theorem stats_error_shown_as_not_found chatId uid match2 s id1 id2 dt accountData :
  uid <> EmptyString ->
  let region := or_str match2 "IND" in
  includes validRegions region = true ->
  telegram s (List.length (sent s)) = Delivered id1 ->
  telegram s (S (List.length (sent s))) = Delivered id2 ->
  has_fresh_entry (stats_cacheKey uid region) (world s) = false ->
  network (world s) (accountUrl uid region) (clock (world s))
    = (dt, Fulfilled (Some accountData)) ->
  truthy (Raw.error accountData) = true ->
  let out := onStats chatId (Some uid) match2 s in
  out.1 = Normal tt
  /\ sent out.2 =
       sent s ++
       [ SendMessage chatId statsLoading Markdown;
         EditMessageText (statsNotFound uid region) chatId id1 Markdown ]
  /\ console (world out.2) =
       console (world s) ++
       ["Primary source failed: " +:+ default EmptyString (Raw.message accountData)].
Proof.
  intros Hu region Hvalid H1 H2 Hmiss Hnet Herr out. subst out region.
  unfold onStats.
  destruct (String.eqb uid EmptyString) eqn:Eu;
    [apply String.eqb_eq in Eu; contradiction|].
  rewrite Hvalid. cbn [negb]. run_callback. rewrite H1.
  cbn [world sent telegram called with_world fst snd].
  rewrite (fetchPlayerStats_miss _ _ _ Hmiss), Hnet, Herr.
  cbn [world sent telegram called with_world fst snd when_truthy].
  rewrite last_length, H2.
  cbn [world sent telegram called with_world fst snd].
  split; [reflexivity|]. split; [|reflexivity].
  rewrite <- app_assoc. reflexivity.
Qed.

(** X20.  A callback of [/stats], [/search] or [/guild] fails only when a
    call to the Bot API that it waits for fails, and then with that call's
    error, that call being the last one it made: whatever the fetch layer
    does is caught, answered in the chat and logged. *)
Theorem callbacks_fail_only_on_bot_api chatId match1 match2 s :
  let ends_well (out : Completion unit * Session) :=
    out.1 = Normal tt
    \/ exists k e, telegram s k = Undelivered e /\ out.1 = Throw e
                   /\ S k = List.length (sent out.2) in
  ends_well (onStats chatId match1 match2 s)
  /\ ends_well (onSearch chatId match1 s)
  /\ ends_well (onGuild chatId match1 match2 s).
Proof.
  intros ends_well. subst ends_well. cbv beta. repeat split.
  - unfold onStats. destruct match1 as [uid|]; [|left; reflexivity].
    destruct (String.eqb uid EmptyString); [left; reflexivity|].
    destruct (includes validRegions (or_str match2 "IND"));
      [|left; reflexivity].
    run_callback. run_session_eqn s; [|failed_call].
    destruct (fetchPlayerStats uid (or_str match2 "IND") (world s))
      as [[[d|]|e] w'];
      run_session_eqn s; first [left; reflexivity | failed_call].
  - unfold onSearch. destruct match1 as [nickname|]; [|left; reflexivity].
    destruct (String.eqb nickname EmptyString); [left; reflexivity|].
    run_callback. run_session_eqn s; [|failed_call].
    destruct (searchPlayerByNickname nickname (world s)) as [[l|e] w'];
      [destruct (Nat.eqb (List.length l) 0)|];
      run_session_eqn s; first [left; reflexivity | failed_call].
  - unfold onGuild. destruct match1 as [guildId|]; [|left; reflexivity].
    destruct (String.eqb guildId EmptyString); [left; reflexivity|].
    run_callback. run_session_eqn s; [|failed_call].
    destruct (fetchGuildInfo guildId (or_str match2 "IND") (world s))
      as [[[d|]|e] w'];
      run_session_eqn s; first [left; reflexivity | failed_call].
Qed.

Lemma fetchPlayerStats_returns uid region w :
  exists r, (fetchPlayerStats uid region w).1 = Normal r.
Proof.
  destruct (fresh_entry_cases (stats_cacheKey uid region) w)
    as [(entry & Hk & Hage) | Hmiss].
  - rewrite (fetchPlayerStats_hit _ _ _ _ Hk Hage). eauto.
  - rewrite (fetchPlayerStats_miss _ _ _ Hmiss).
    destruct (network w (accountUrl uid region) (clock w)) as [dt [[acc|]|e]];
      cbn [fst]; eauto.
    destruct (truthy (Raw.error acc)); cbn [fst]; eauto.
    destruct (network w (statsUrl uid region) (clock w + dt)) as [dt' [stats|e]];
      cbn [fst]; eauto.
Qed.

Lemma fetchGuildInfo_returns guildId region w :
  exists r, (fetchGuildInfo guildId region w).1 = Normal r.
Proof.
  destruct (fresh_entry_cases (guild_cacheKey guildId region) w)
    as [(entry & Hk & Hage) | Hmiss].
  - rewrite (fetchGuildInfo_hit _ _ _ _ Hk Hage). eauto.
  - rewrite (fetchGuildInfo_miss _ _ _ Hmiss).
    destruct (network w (guildUrl guildId region) (clock w)) as [dt [[g|]|e]];
      cbn [fst]; eauto.
    destruct (truthy (Raw.error g)); cbn [fst]; eauto.
Qed.

(** X21.  When the Bot API delivers both calls, a valid [/stats] command
    and a [/guild] command end normally with two calls, the loading message
    and one edit of it, and the edit is the fixed not-found text when the
    fetch function returned [null] or a falsy value (the empty text of an
    empty upstream body, [0], [false]), and the formatted data otherwise.
    The "Error Occurred" texts are not among them: no failure of the fetch
    layer is ever reported as an error in the chat. *)
Theorem replies_when_delivered chatId id match2 s id1 id2 :
  id <> EmptyString ->
  telegram s (List.length (sent s)) = Delivered id1 ->
  telegram s (S (List.length (sent s))) = Delivered id2 ->
  let region := or_str match2 "IND" in
  (includes validRegions region = true ->
   let fetched := fetchPlayerStats id region (world s) in
   let out := onStats chatId (Some id) match2 s in
   out.1 = Normal tt /\ world out.2 = fetched.2
   /\ exists result,
        fetched.1 = Normal result
        /\ sent out.2 =
             sent s ++
             [ SendMessage chatId statsLoading Markdown;
               EditMessageText
                 (match result with
                  | Some d =>
                      if data_truthy d then formatPlayerStats d
                      else statsNotFound id region
                  | None => statsNotFound id region
                  end) chatId id1 Markdown ])
  /\ (let fetched := fetchGuildInfo id region (world s) in
      let out := onGuild chatId (Some id) match2 s in
      out.1 = Normal tt /\ world out.2 = fetched.2
      /\ exists result,
           fetched.1 = Normal result
           /\ sent out.2 =
                sent s ++
                [ SendMessage chatId guildLoading Markdown;
                  EditMessageText
                    (match result with
                     | Some d =>
                         if data_truthy d then formatGuildInfo d
                         else guildNotFound id region
                     | None => guildNotFound id region
                     end) chatId id1 Markdown ]).
Proof.
  intros Hid H1 H2 region. subst region.
  assert (Eid : String.eqb id EmptyString = false).
  { destruct (String.eqb id EmptyString) eqn:E; [|reflexivity].
    apply String.eqb_eq in E. contradiction. }
  split.
  - intros Hvalid fetched out. subst fetched out. unfold onStats.
    rewrite Eid, Hvalid. cbn [negb]. run_callback. rewrite H1.
    cbn [world sent telegram called with_world fst snd].
    destruct (fetchPlayerStats_returns id (or_str match2 "IND") (world s))
      as [r Hr].
    destruct (fetchPlayerStats id (or_str match2 "IND") (world s)) as [c w'].
    cbn [fst] in Hr. subst c.
    destruct r as [d|]; cbn [when_truthy]; [destruct (data_truthy d) eqn:Et|];
      cbn [world sent telegram called with_world fst snd];
      rewrite last_length, H2;
      cbn [world sent telegram called with_world fst snd];
      (split; [reflexivity|]; split; [reflexivity|]);
      eexists; (split; [reflexivity|]); cbv beta iota;
      repeat match goal with
             | Et : data_truthy _ = _ |- _ => rewrite Et; clear Et
             end;
      rewrite <- app_assoc; reflexivity.
  - intros fetched out. subst fetched out. unfold onGuild.
    rewrite Eid. run_callback. rewrite H1.
    cbn [world sent telegram called with_world fst snd].
    destruct (fetchGuildInfo_returns id (or_str match2 "IND") (world s))
      as [r Hr].
    destruct (fetchGuildInfo id (or_str match2 "IND") (world s)) as [c w'].
    cbn [fst] in Hr. subst c.
    destruct r as [d|]; cbn [when_truthy]; [destruct (data_truthy d) eqn:Et|];
      cbn [world sent telegram called with_world fst snd];
      rewrite last_length, H2;
      cbn [world sent telegram called with_world fst snd];
      (split; [reflexivity|]; split; [reflexivity|]);
      eexists; (split; [reflexivity|]); cbv beta iota;
      repeat match goal with
             | Et : data_truthy _ = _ |- _ => rewrite Et; clear Et
             end;
      rewrite <- app_assoc; reflexivity.
Qed.

(** X22.  A valid [/stats] command that finds a fresh entry for its pair
    is answered from the cache: the reply is the formatted data of that
    entry (the not-found text, should the stored value be falsy), no
    request goes upstream and the store is left as it was. *)
Theorem stats_answered_from_cache chatId uid match2 s id1 id2 entry :
  uid <> EmptyString ->
  let region := or_str match2 "IND" in
  includes validRegions region = true ->
  telegram s (List.length (sent s)) = Delivered id1 ->
  telegram s (S (List.length (sent s))) = Delivered id2 ->
  searchCache (world s) !! stats_cacheKey uid region = Some entry ->
  clock (world s) - timestamp entry < CACHE_DURATION ->
  let out := onStats chatId (Some uid) match2 s in
  out.1 = Normal tt
  /\ sent out.2 =
       sent s ++
       [ SendMessage chatId statsLoading Markdown;
         EditMessageText
           (if data_truthy (data entry) then formatPlayerStats (data entry)
            else statsNotFound uid region) chatId id1 Markdown ]
  /\ requests (world out.2) = requests (world s)
  /\ searchCache (world out.2) = searchCache (world s).
Proof.
  intros Hu region Hvalid H1 H2 Hk Hage out. subst out region.
  unfold onStats.
  destruct (String.eqb uid EmptyString) eqn:Eu;
    [apply String.eqb_eq in Eu; contradiction|].
  rewrite Hvalid. cbn [negb]. run_callback. rewrite H1.
  cbn [world sent telegram called with_world fst snd].
  rewrite (fetchPlayerStats_hit _ _ _ _ Hk Hage).
  cbn [world sent telegram called with_world fst snd when_truthy].
  destruct (data_truthy (data entry));
    cbn [world sent telegram called with_world fst snd];
    rewrite last_length, H2;
    cbn [world sent telegram called with_world fst snd];
    (split; [reflexivity|]); (split; [rewrite <- app_assoc; reflexivity|]);
    split; reflexivity.
Qed.

End Host.

(** ** Closed instances

    The statements above at the sample payloads and worlds, with
    [sample_locale] and [sample_exponent] for the host. *)

(** The arithmetic is that of doubles: a sum beyond [2^53] goes to the even
    neighbour, the quotient 201 / 200 is the double just below 1.005, and
    1150 / 1000 the double just below 1.15, while 1.25 is exact and
    [toFixed] rounds it up. *)
Lemma double_arithmetic_examples :
  Number_add 9007199254740991 2 = 9007199254740992
  /\ Number_add 9007199254740991 4 = 9007199254740996
  /\ toFixed sample_exponent 2 (Number_div 201 200) = "1.00"%string
  /\ formatNumber sample_exponent 1150 = "1.1K"%string
  /\ formatNumber sample_exponent 1250 = "1.3K"%string.
Proof. vm_compute. repeat split. Qed.



(** A present rank code of [0] is not in the table, and the label is
    ["Rank Unknown"], not ["Rank 0"]. *)
Lemma rank_zero_counterexample :
  let accountData := sample_account (Some 0) (Some 75) in
  let r :=
    combinePlayerData sample_locale sample_exponent accountData None
      "1633864660" "IND" in
  opt_chain (Raw.basicInfo accountData) Raw.rank = Some (SNum 0)
  /\ rankNames "0" = None
  /\ Number_toString sample_exponent 0 = "0"%string
  /\ rank r = Text "Rank Unknown"
  /\ rank r <> Text ("Rank " +:+ Number_toString sample_exponent 0).
Proof.
  repeat split. vm_compute. discriminate.
Qed.

Lemma rank_label_witness :
  rank (combinePlayerData sample_locale sample_exponent
          (sample_account (Some 220) (Some 75)) None "1633864660" "IND")
    = Text "Grandmaster"
  /\ rank (combinePlayerData sample_locale sample_exponent
             (account_with_ranks (Some (SStr "214")) None) None
             "1633864660" "IND")
       = Text "Platinum III"
  /\ rank (combinePlayerData sample_locale sample_exponent
             (sample_account (Some 999) (Some 75)) None "1633864660" "IND")
       = Text "Rank 999"
  /\ rank (combinePlayerData sample_locale sample_exponent
             (sample_account None (Some 75)) None "1633864660" "IND")
       = Text "Rank Unknown"
  /\ rank (combinePlayerData sample_locale sample_exponent
             (account_with_ranks (Some (SStr "Heroic")) None) None
             "1633864660" "IND")
       = Text "Rank Heroic"
  /\ rank (combinePlayerData sample_locale sample_exponent
             (account_with_ranks (Some (SStr "toString")) None) None
             "1633864660" "IND")
       = Inherited "toString".
Proof.
  assert (Hown : forall s : string,
            s = "Heroic"%string ->
            ~ In s ["220"; "219"; "218"; "217"; "216"; "215"; "214"; "213";
                    "212"; "211"]%string).
  { intros s -> H. simpl in H.
    repeat (destruct H as [H | H]; [discriminate H|]). exact H. }
  assert (Hinh : forall s : string, s = "Heroic"%string -> ~ In s Object_prototype).
  { intros s -> H. unfold Object_prototype in H. simpl in H.
    repeat (destruct H as [H | H]; [discriminate H|]). exact H. }
  split; [|split; [|split; [|split; [|split]]]].
  - destruct (rank_label sample_locale sample_exponent
                (sample_account (Some 220) (Some 75)) None "1633864660" "IND")
      as (Htable & _).
    apply (Htable 220 "Grandmaster"%string); left; reflexivity.
  - destruct (rank_label sample_locale sample_exponent
                (account_with_ranks (Some (SStr "214")) None) None
                "1633864660" "IND") as (Htable & _).
    apply (Htable 214 "Platinum III"%string); [simpl; tauto | right; reflexivity].
  - destruct (rank_label sample_locale sample_exponent
                (sample_account (Some 999) (Some 75)) None "1633864660" "IND")
      as (_ & _ & H999 & _).
    exact (H999 eq_refl).
  - destruct (rank_label sample_locale sample_exponent
                (sample_account None (Some 75)) None "1633864660" "IND")
      as (_ & _ & _ & Hnone & _).
    exact (Hnone (or_introl eq_refl)).
  - destruct (rank_label sample_locale sample_exponent
                (account_with_ranks (Some (SStr "Heroic")) None) None
                "1633864660" "IND") as (_ & _ & _ & _ & _ & Hstr & _).
    apply (Hstr "Heroic"%string eq_refl);
      [discriminate | apply Hown; reflexivity | apply Hinh; reflexivity].
  - destruct (rank_label sample_locale sample_exponent
                (account_with_ranks (Some (SStr "toString")) None) None
                "1633864660" "IND") as (_ & _ & _ & _ & _ & _ & Hinherited).
    apply (Hinherited "toString"%string eq_refl).
    unfold Object_prototype. simpl. tauto.
Defined.

(** A maxRank of ["constructor"] reads the function every object inherits
    under that name: the field is neither a tier nor ["Unknown"]. *)
Lemma maxRank_inherited_counterexample :
  let accountData := account_with_ranks None (Some (SStr "constructor")) in
  let r :=
    combinePlayerData sample_locale sample_exponent accountData None
      "1633864660" "IND" in
  opt_chain (Raw.basicInfo accountData) Raw.maxRank = Some (SStr "constructor")
  /\ maxRank r = Inherited "constructor"
  /\ maxRank r <> Text "Unknown"
  /\ (forall name, maxRank r <> Text name).
Proof.
  repeat split; intros; discriminate.
Qed.

Lemma maxRank_label_witness :
  maxRank (combinePlayerData sample_locale sample_exponent
             (sample_account (Some 220) (Some 75)) None "1633864660" "IND")
    = Text "Grandmaster"
  /\ maxRank (combinePlayerData sample_locale sample_exponent
                (account_with_ranks None (Some (SStr "211"))) None
                "1633864660" "IND")
       = Text "Gold III"
  /\ maxRank (combinePlayerData sample_locale sample_exponent
                (sample_account (Some 999) (Some 75)) None "1633864660" "IND")
       = Text "Unknown"
  /\ maxRank (combinePlayerData sample_locale sample_exponent
                (account_with_ranks None (Some (SStr "Heroic"))) None
                "1633864660" "IND")
       = Text "Unknown".
Proof.
  split; [|split; [|split]].
  - destruct (maxRank_label sample_locale sample_exponent
                (sample_account (Some 220) (Some 75)) None "1633864660" "IND")
      as (Htable & _).
    apply (Htable 220 "Grandmaster"%string); left; reflexivity.
  - destruct (maxRank_label sample_locale sample_exponent
                (account_with_ranks None (Some (SStr "211"))) None
                "1633864660" "IND") as (Htable & _).
    apply (Htable 211 "Gold III"%string); [simpl; tauto | right; reflexivity].
  - destruct (maxRank_label sample_locale sample_exponent
                (sample_account (Some 999) (Some 75)) None "1633864660" "IND")
      as (_ & Hother & _).
    apply (Hother 999 eq_refl); [lia | vm_compute; discriminate].
  - destruct (maxRank_label sample_locale sample_exponent
                (account_with_ranks None (Some (SStr "Heroic"))) None
                "1633864660" "IND") as (_ & _ & _ & _ & Hstr & _).
    apply (Hstr "Heroic"%string eq_refl).
    + simpl. intros H.
      repeat (destruct H as [H | H]; [discriminate H|]). exact H.
    + unfold Object_prototype. simpl. intros H.
      repeat (destruct H as [H | H]; [discriminate H|]). exact H.
Defined.

(** An upstream level of [-5] is passed through to the record. *)
Lemma negative_level_counterexample :
  let r :=
    combinePlayerData sample_locale sample_exponent
      (sample_account (Some 220) (Some (-5))) None "1633864660" "IND" in
  level r = -5 /\ level r < 0.
Proof. split; reflexivity. Qed.

Lemma numeric_fields_non_negative_witness :
  let r :=
    combinePlayerData sample_locale sample_exponent
      (sample_account (Some 220) (Some 75))
      (Some (sample_stats (sample_mode 60 25 70 20) (sample_mode 40 18 50 20)))
      "1633864660" "IND" in
  0 <= level r /\ 0 <= likes r /\ 0 <= rankingPoints r /\ 0 <= totalMatches r
  /\ 0 <= totalWins r /\ 0 <= totalKills r /\ 0 <= headshots r /\ 0 <= damage r
  /\ 0 <= badgeCount r.
Proof.
  exact (numeric_fields_non_negative sample_locale sample_exponent
           (sample_account (Some 220) (Some 75))
           (Some (sample_stats (sample_mode 60 25 70 20) (sample_mode 40 18 50 20)))
           "1633864660" "IND" eq_refl).
Defined.

(** An entry stored 301 s ago, one stored 600 001 ms ago and one stored just
    now: the sweep removes the second only, and the first is a miss. *)
Lemma sweep_removes_only_old_entries_witness :
  let cache : gmap string CacheEntry :=
    <["stats-1-IND"%string := sample_entry 699000]>
      (<["stats-2-IND"%string := sample_entry 399999]>
         (<["stats-3-IND"%string := sample_entry 1000000]> ∅)) in
  let w := sample_world cache 1000000 network_ok in
  cache_get_fresh "stats-1-IND" w = (Normal None, w)
  /\ searchCache (sweep sample_exponent w).2 !! "stats-1-IND"%string
       = Some (sample_entry 699000)
  /\ searchCache (sweep sample_exponent w).2 !! "stats-2-IND"%string = None.
Proof.
  intros cache w.
  destruct (sweep_removes_only_old_entries sample_exponent w)
    as (_ & _ & _ & Hold & Hyoung).
  split; [|split].
  - apply (Hyoung "stats-1-IND"%string (sample_entry 699000)); reflexivity.
  - apply (Hyoung "stats-1-IND"%string (sample_entry 699000)); reflexivity.
  - apply (Hold "stats-2-IND"%string (sample_entry 399999)); reflexivity.
Defined.

(** The upstream body sets [error: true] with the message "uid not found":
    the call returns [null]; it does not reject with that message. *)
Lemma application_error_counterexample :
  let w := sample_world ∅ 1000 network_not_found in
  let out := fetchPlayerStats sample_locale sample_exponent "1633864660" "IND" w in
  has_fresh_entry (stats_cacheKey "1633864660" "IND") w = false
  /\ network w (accountUrl "1633864660" "IND") (clock w)
       = (250, Fulfilled (Some account_not_found))
  /\ truthy (Raw.error account_not_found) = true
  /\ Raw.message account_not_found = Some "uid not found"%string
  /\ out.1 = Normal None
  /\ out.1 <> Throw (Error "uid not found").
Proof.
  repeat split. vm_compute. discriminate.
Qed.

Lemma application_error_returns_null_witness :
  let w := sample_world ∅ 1000 network_not_found in
  let out := fetchPlayerStats sample_locale sample_exponent "1633864660" "IND" w in
  out.1 = Normal None
  /\ (forall e, out.1 <> Throw e)
  /\ console out.2 = ["Primary source failed: uid not found"%string]
  /\ requests out.2 = [accountUrl "1633864660" "IND"]
  /\ searchCache out.2 = searchCache w.
Proof.
  exact (application_error_returns_null sample_locale sample_exponent
           "1633864660" "IND" (sample_world ∅ 1000 network_not_found)
           250 account_not_found eq_refl eq_refl eq_refl).
Defined.



Lemma failure_keeps_cache_witness :
  let cache : gmap string CacheEntry := {[ "stats-7-BR"%string := sample_entry 0 ]} in
  let w := sample_world cache 1000 network_down in
  searchCache (fetchPlayerStats sample_locale sample_exponent "1633864660" "IND" w).2
    = cache
  /\ searchCache (fetchGuildInfo "3033195648" "IND" w).2 = cache.
Proof.
  intros cache w.
  destruct (failure_keeps_cache sample_locale sample_exponent
              "1633864660" "3033195648" "IND" w) as (Hplayer & Hguild & _).
  split.
  - apply Hplayer. left. reflexivity.
  - apply Hguild. left. reflexivity.
Defined.

(** The first call is served from an entry stored 299 999 ms earlier; the
    second call, one millisecond later, finds the entry stale and goes
    upstream. *)
Lemma second_call_counterexample :
  let key := stats_cacheKey "1633864660" "IND" in
  let cache : gmap string CacheEntry := {[ key := sample_entry 0 ]} in
  let w := sample_world cache 299999 network_ok in
  let first := fetchPlayerStats sample_locale sample_exponent "1633864660" "IND" w in
  let second :=
    fetchPlayerStats sample_locale sample_exponent "1633864660" "IND"
      (tick 1 first.2) in
  first.1 = Normal (Some (PlayerData stale_record))
  /\ requests first.2 = []
  /\ clock (tick 1 first.2) - clock w = 1
  /\ requests second.2 =
       [accountUrl "1633864660" "IND"; statsUrl "1633864660" "IND"]
  /\ second.1 <> first.1.
Proof.
  repeat split. vm_compute. discriminate.
Qed.

Lemma second_call_served_from_cache_witness :
  let w := sample_world ∅ 1000 network_ok in
  let first := fetchPlayerStats sample_locale sample_exponent "1633864660" "IND" w in
  let later := tick 299999 first.2 in
  exists d w2',
    first.1 = Normal (Some d)
    /\ fetchPlayerStats sample_locale sample_exponent "1633864660" "IND" later
         = (Normal (Some d), w2')
    /\ requests w2' = requests later
    /\ searchCache w2' = searchCache later.
Proof.
  intros w first later.
  pose (d := PlayerData
               (combinePlayerData sample_locale sample_exponent
                  (sample_account (Some 220) (Some 75))
                  (Some (sample_stats (sample_mode 60 25 70 20) (sample_mode 40 18 50 20)))
                  "1633864660" "IND")).
  assert (Hfirst : fetchPlayerStats sample_locale sample_exponent "1633864660" "IND" w
                   = (Normal (Some d), first.2)) by reflexivity.
  destruct (second_call_served_from_cache sample_locale sample_exponent
              "1633864660" "IND" w d first.2 Hfirst)
    as (entry & Hentry & Hdata & Hstored & Hsecond).
  destruct (Hsecond later) as (w2' & Hrun & Hreq & Hcache).
  - exact Hentry.
  - rewrite (Hstored eq_refl). reflexivity.
  - exists d, w2'. split; [reflexivity|]. split; [exact Hrun|].
    split; [exact Hreq|exact Hcache].
Defined.

Lemma stale_entry_refetched_witness :
  let key := stats_cacheKey "1633864660" "IND" in
  let cache : gmap string CacheEntry := {[ key := sample_entry 0 ]} in
  let w := sample_world cache 300000 network_ok in
  exists rest,
    requests (fetchPlayerStats sample_locale sample_exponent "1633864660" "IND" w).2
      = accountUrl "1633864660" "IND" :: rest.
Proof.
  exact (stale_entry_refetched sample_locale sample_exponent "1633864660" "IND"
           (sample_world {[ stats_cacheKey "1633864660" "IND" := sample_entry 0 ]}
              300000 network_ok)
           (sample_entry 0) eq_refl (Z.le_refl _)).
Defined.

Lemma guild_error_returns_null_witness :
  fetchGuildInfo "1633864660" "IND"
    (sample_world ∅ 1000
       (fun _ _ => (250, Fulfilled (Some account_not_found))))
  = (Normal None,
     requested (guildUrl "1633864660" "IND") 250
       (sample_world ∅ 1000
          (fun _ _ => (250, Fulfilled (Some account_not_found))))).
Proof.
  exact (guild_error_returns_null "1633864660" "IND"
           (sample_world ∅ 1000
              (fun _ _ => (250, Fulfilled (Some account_not_found))))
           250 account_not_found eq_refl eq_refl eq_refl).
Defined.

Lemma guild_success_cached_raw_witness :
  let w := sample_world ∅ 1000 (fun _ _ => (250, Fulfilled (Some sample_guild))) in
  let out := fetchGuildInfo "3033195648" "IND" w in
  out.1 = Normal (Some (RawData sample_guild))
  /\ searchCache out.2 !! guild_cacheKey "3033195648" "IND"
       = Some {| data := RawData sample_guild; timestamp := 1250 |}
  /\ requests out.2 = [guildUrl "3033195648" "IND"].
Proof.
  exact (guild_success_cached_raw "3033195648" "IND"
           (sample_world ∅ 1000 (fun _ _ => (250, Fulfilled (Some sample_guild))))
           250 sample_guild eq_refl eq_refl eq_refl).
Defined.

Lemma empty_body_yields_default_record_witness :
  let net : string -> Z -> Z * HttpResult :=
    fun _ _ => (250, Fulfilled (Some malformed_body)) in
  let out :=
    fetchPlayerStats sample_locale sample_exponent "1633864660" "IND"
      (sample_world ∅ 1000 net) in
  exists r,
    out.1 = Normal (Some (PlayerData r))
    /\ nickname r = "Unknown"%string /\ uid r = "1633864660"%string /\ level r = 0
    /\ region r = "IND"%string /\ likes r = 0 /\ rankingPoints r = 0
    /\ badgeCount r = 0 /\ rank r = Text "Rank Unknown"
    /\ maxRank r = Text "Unknown" /\ lastLogin r = "Unknown"%string
    /\ clanInfo r = None
    /\ searchCache out.2 !! stats_cacheKey "1633864660" "IND"
         = Some {| data := PlayerData r; timestamp := 1500 |}.
Proof.
  exact (empty_body_yields_default_record sample_locale sample_exponent
           "1633864660" "IND"
           (sample_world ∅ 1000 (fun _ _ => (250, Fulfilled (Some malformed_body))))
           250 250 malformed_body (Some malformed_body)
           eq_refl eq_refl eq_refl eq_refl eq_refl).
Defined.

Lemma formatNumber_shape_witness :
  formatNumber sample_exponent (-5000) = "-5000"%string
  /\ (exists figure, formatNumber sample_exponent 12345 = (figure +:+ "K")%string
                     /\ has_decimals 1 figure = true)
  /\ (exists figure, formatNumber sample_exponent 2500000 = (figure +:+ "M")%string
                     /\ has_decimals 1 figure = true).
Proof.
  split; [|split].
  - destruct (formatNumber_shape sample_exponent (-5000)) as (Hfull & _ & _);
      [vm_compute; discriminate|].
    destruct (Hfull eq_refl) as [Hstr _]. rewrite Hstr. reflexivity.
  - apply (formatNumber_shape sample_exponent 12345); [vm_compute; discriminate|].
    split; [intros H; discriminate H | reflexivity].
  - apply (formatNumber_shape sample_exponent 2500000); [vm_compute; discriminate|].
    intros H; discriminate H.
Defined.

Lemma formatNumber_rollover_witness :
  formatNumber sample_exponent 999960 = "1000.0K"%string.
Proof.
  apply formatNumber_rollover. split; reflexivity.
Defined.

Lemma cache_key_determines_pair_witness :
  stats_cacheKey "163" "IND" <> stats_cacheKey "16" "3IND"
  /\ stats_cacheKey "163" "IND" <> guild_cacheKey "163" "IND".
Proof.
  destruct (cache_key_determines_pair "163" "16" "IND" "3IND" eq_refl eq_refl)
    as (Hstats & _ & Hkinds & _).
  split.
  - intros E. destruct (Hstats E) as [Hid _]. discriminate Hid.
  - intros E.
    destruct (cache_key_determines_pair "163" "163" "IND" "IND" eq_refl eq_refl)
      as (_ & _ & Hne & _).
    exact (Hne E).
Defined.

Lemma fetch_writes_only_its_key_witness :
  let cache : gmap string CacheEntry := {[ "stats-7-BR"%string := sample_entry 0 ]} in
  let w := sample_world cache 1000 network_ok in
  searchCache (fetchPlayerStats sample_locale sample_exponent "1633864660" "IND" w).2
    !! "stats-7-BR"%string = Some (sample_entry 0)
  /\ is_Some (searchCache (fetchGuildInfo "3033195648" "IND" w).2
                !! "stats-7-BR"%string).
Proof.
  intros cache w.
  destruct (fetch_writes_only_its_key sample_locale sample_exponent
              "1633864660" "3033195648" "IND" w) as (Hplayer & _ & Hkept).
  split.
  - rewrite (Hplayer "stats-7-BR"%string); [reflexivity|].
    intros E. discriminate E.
  - apply (Hkept "stats-7-BR"%string). eexists. reflexivity.
Defined.

Lemma guild_second_call_served_from_cache_witness :
  let w := sample_world ∅ 1000 (fun _ _ => (250, Fulfilled (Some sample_guild))) in
  let first := fetchGuildInfo "3033195648" "IND" w in
  let later := tick 299999 first.2 in
  first.1 = Normal (Some (RawData sample_guild))
  /\ fetchGuildInfo "3033195648" "IND" later
       = (Normal (Some (RawData sample_guild)), later).
Proof.
  intros w first later.
  assert (Hfirst : fetchGuildInfo "3033195648" "IND" w
                   = (Normal (Some (RawData sample_guild)), first.2)) by reflexivity.
  destruct (guild_second_call_served_from_cache "3033195648" "IND" w
              (RawData sample_guild) first.2 Hfirst)
    as (entry & Hentry & Hdata & Hstored & Hsecond).
  split; [reflexivity|].
  apply Hsecond.
  - exact Hentry.
  - rewrite (Hstored eq_refl). reflexivity.
Defined.

Lemma cache_kinds_preserved_witness :
  let w := sample_world ∅ 1000 network_ok in
  cache_typed
    (searchCache (fetchPlayerStats sample_locale sample_exponent "1633864660" "IND" w).2)
  /\ ((fetchGuildInfo "3033195648" "IND" w).1 = Normal None
      \/ exists b, (fetchGuildInfo "3033195648" "IND" w).1 = Normal (Some (RawData b))).
Proof.
  intros w.
  destruct (cache_kinds_preserved sample_locale sample_exponent
              "1633864660" "3033195648" "IND" w cache_typed_empty)
    as (Hplayer & _ & _ & _ & Hguild).
  split; [exact Hplayer | exact Hguild].
Defined.

Lemma other_pairs_do_not_disturb_witness :
  let w := sample_world ∅ 1000 network_ok in
  let w1 := (fetchPlayerStats sample_locale sample_exponent "1633864660" "IND" w).2 in
  let w2 :=
    (fetchPlayerStats sample_locale sample_exponent "1633864660" "BR" (tick 1000 w1)).2 in
  let w3 := (fetchGuildInfo "3033195648" "IND" (tick 1000 w2)).2 in
  let w4 := tick 1000 w3 in
  exists d w5,
    (fetchPlayerStats sample_locale sample_exponent "1633864660" "IND" w).1
      = Normal (Some d)
    /\ fetchPlayerStats sample_locale sample_exponent "1633864660" "IND" w4
         = (Normal (Some d), w5)
    /\ requests w5 = requests w4.
Proof.
  intros w w1 w2 w3 w4.
  pose (d := PlayerData
               (combinePlayerData sample_locale sample_exponent
                  (sample_account (Some 220) (Some 75))
                  (Some (sample_stats (sample_mode 60 25 70 20) (sample_mode 40 18 50 20)))
                  "1633864660" "IND")).
  assert (Hfirst : fetchPlayerStats sample_locale sample_exponent "1633864660" "IND" w
                   = (Normal (Some d), w1)) by reflexivity.
  assert (Hne : ("1633864660"%string, "IND"%string) <> ("1633864660"%string, "BR"%string))
    by discriminate.
  destruct (other_pairs_do_not_disturb sample_locale sample_exponent
              "1633864660" "IND" "1633864660" "BR" "3033195648" "IND"
              w d w1 1000 1000 1000 eq_refl eq_refl Hne Hfirst)
    as (entry & Hentry & Hdata & Hlater).
  assert (Hstored : timestamp entry = 1500).
  { assert (Hlook : searchCache w1 !! stats_cacheKey "1633864660" "IND"
                    = Some {| data := d; timestamp := 1500 |}) by reflexivity.
    rewrite Hlook in Hentry. injection Hentry as <-. reflexivity. }
  destruct Hlater as (w5 & Hrun & Hreq).
  - rewrite Hstored. vm_compute. reflexivity.
  - exists d, w5. split; [reflexivity|]. split; [exact Hrun | exact Hreq].
Defined.

Lemma stats_rejects_bad_input_witness :
  let s := sample_session (sample_world ∅ 1000 network_ok) in
  let out := onStats sample_locale sample_exponent sample_format sample_inspect
               7 (Some "1633864660"%string) (Some "XX"%string) s in
  out.1 = Normal tt
  /\ world out.2 = world s
  /\ sent out.2 = [SendMessage 7 (statsInvalidRegion "1633864660") Markdown].
Proof.
  intros s out.
  destruct (stats_rejects_bad_input sample_locale sample_exponent sample_format
              sample_inspect 7 (Some "1633864660"%string) (Some "XX"%string) s
              (or_intror eq_refl))
    as (text & Hdone & Hworld & Hsent & _ & Htext).
  rewrite (Htext _ eq_refl eq_refl) in Hsent.
  split; [exact Hdone|]. split; [exact Hworld | exact Hsent].
Defined.

Lemma guild_forwards_any_region_witness :
  let s := sample_session
             (sample_world ∅ 1000 (fun _ _ => (250, Fulfilled (Some sample_guild)))) in
  let out := onGuild sample_format sample_inspect
               7 (Some "3033195648"%string) (Some "XX"%string) s in
  includes validRegions "XX" = false
  /\ exists rest, requests (world out.2) = guildUrl "3033195648" "XX" :: rest.
Proof.
  intros s out.
  assert (Hid : "3033195648"%string <> EmptyString) by discriminate.
  destruct (guild_forwards_any_region sample_format sample_inspect
              7 "3033195648"%string (Some "XX"%string) s 100 Hid eq_refl)
    as (_ & _ & Hmiss).
  split; [reflexivity | exact (Hmiss eq_refl)].
Defined.

Lemma search_replies_with_the_stub_witness :
  let s := sample_session (sample_world ∅ 1000 network_down) in
  let out := onSearch sample_exponent sample_inspect 7 (Some "SniperKing"%string) s in
  out.1 = Normal tt
  /\ requests (world out.2) = []
  /\ List.length (sent out.2) = 2%nat.
Proof.
  intros s out.
  assert (Hn : "SniperKing"%string <> EmptyString) by discriminate.
  destruct (search_replies_with_the_stub sample_exponent sample_inspect
              7 "SniperKing"%string s 100 101 Hn eq_refl eq_refl)
    as (Hdone & Hworld & Hsent).
  split; [exact Hdone|]. split.
  - fold s in Hworld. fold out in Hworld. rewrite Hworld. reflexivity.
  - fold s in Hsent. fold out in Hsent. rewrite Hsent. reflexivity.
Defined.

Lemma stats_error_shown_as_not_found_witness :
  let s := sample_session (sample_world ∅ 1000 network_not_found) in
  let out := onStats sample_locale sample_exponent sample_format sample_inspect
               7 (Some "1633864660"%string) None s in
  sent out.2 =
    [ SendMessage 7 statsLoading Markdown;
      EditMessageText (statsNotFound "1633864660" "IND") 7 100 Markdown ]
  /\ console (world out.2) = ["Primary source failed: uid not found"%string].
Proof.
  intros s out.
  assert (Hu : "1633864660"%string <> EmptyString) by discriminate.
  destruct (stats_error_shown_as_not_found sample_locale sample_exponent
              sample_format sample_inspect 7 "1633864660"%string None s 100 101
              250 account_not_found Hu eq_refl eq_refl eq_refl eq_refl eq_refl
              eq_refl)
    as (_ & Hsent & Hconsole).
  split; [exact Hsent | exact Hconsole].
Defined.

(** Upstream answers the guild request with an empty body: the fetch
    function stores and returns the empty text, and the callback, which
    tests the value returned, answers with the not-found text. *)
Lemma replies_when_delivered_witness :
  let s :=
    sample_session
      (sample_world ∅ 1000 (fun _ _ => (250, Fulfilled (Some empty_body)))) in
  let out := onGuild sample_format sample_inspect 7 (Some "3033195648"%string) None s in
  (fetchGuildInfo "3033195648" "IND" (world s)).1
    = Normal (Some (RawData empty_body))
  /\ out.1 = Normal tt
  /\ sent out.2 =
       [ SendMessage 7 guildLoading Markdown;
         EditMessageText (guildNotFound "3033195648" "IND") 7 100 Markdown ].
Proof.
  intros s out.
  assert (Hid : "3033195648"%string <> EmptyString) by discriminate.
  destruct (replies_when_delivered sample_locale sample_exponent sample_format
              sample_format sample_inspect 7 "3033195648"%string None s 100 101
              Hid eq_refl eq_refl) as [_ Hguild].
  destruct Hguild as (Hdone & _ & result & Hres & Hsent).
  assert (E : Normal result = Normal (Some (RawData empty_body)))
    by (rewrite <- Hres; reflexivity).
  injection E as ->.
  split; [reflexivity|]. split; [exact Hdone | exact Hsent].
Defined.

Lemma stats_answered_from_cache_witness :
  let cache : gmap string CacheEntry :=
    {[ stats_cacheKey "1633864660" "IND" := sample_entry 1000 ]} in
  let s := sample_session (sample_world cache 300999 network_down) in
  let out := onStats sample_locale sample_exponent sample_format sample_inspect
               7 (Some "1633864660"%string) None s in
  sent out.2 =
    [ SendMessage 7 statsLoading Markdown;
      EditMessageText "ProGamer" 7 100 Markdown ]
  /\ requests (world out.2) = [].
Proof.
  intros cache s out.
  assert (Hu : "1633864660"%string <> EmptyString) by discriminate.
  destruct (stats_answered_from_cache sample_locale sample_exponent sample_format
              sample_inspect 7 "1633864660"%string None s 100 101
              (sample_entry 1000) Hu eq_refl eq_refl eq_refl eq_refl eq_refl)
    as (_ & Hsent & Hreq & _).
  split; [exact Hsent | exact Hreq].
Defined.
